(** * LoRaManager (terkin/network/lora.py): a shallow embedding

    The class [LoRaManager] drives a LoRaWAN OTAA join and a raw socket on a
    Pycom radio.  Its methods are embedded as computations in a small
    state-and-exception monad over a [World]: the attributes of the manager
    object together with the chronological trace of everything the methods do
    to the outside (radio calls, sleeps, log lines).

    The radio itself (the [network.LoRa] object and the socket it hands out)
    is not part of the repository.  It is represented by a [Radio]: the
    answers it gives to the n-th [has_joined()], [send()] and [recvfrom()]
    call.  Since the manager is single threaded and only ever sees the
    answers, quantifying over all [Radio]s covers every behaviour of the
    hardware, time dependent or not.

    The [while] loop of [wait_for_lora_join] has no bound in the source, so
    the embedding runs it on fuel: [OutOfFuel] means "still looping after
    [fuel] polls", and a call terminates when some fuel gives another
    result. *)

From Stdlib Require Import ZArith NArith Strings.Byte Ascii String List Lia.
From stdpp Require Import base option list strings gmap.

Open Scope string_scope.
Open Scope Z_scope.

(** ** Python values and bytes *)

Definition bytes := list byte.

(** The values that occur in the settings and in the attributes. *)
Inductive pyval : Type :=
| PNone
| PBool (b : bool)
| PInt (z : Z)
| PStr (s : string).

#[global] Instance pyval_eq_dec : EqDecision pyval.
Proof. solve_decision. Defined.

(** Python truthiness, as used by [if self.lora_joined:]. *)
Definition truthy (v : pyval) : bool :=
  match v with
  | PNone => false
  | PBool b => b
  | PInt z => negb (z =? 0)
  | PStr s => negb (String.eqb s "")
  end.

(** [if rx:] on a bytes object. *)
Definition bytes_truthy (b : bytes) : bool :=
  match b with
  | [] => false
  | _ :: _ => true
  end.

Inductive Exn : Type :=
| NameError (name : string)
| AttributeError (attr : string)
| KeyError (key : string)
| TypeError (what : string)
| ValueError (what : string).

(** ** binascii.unhexlify *)

Definition xdigit_value (c : ascii) : option N :=
  let n := N_of_ascii c in
  if ((48 <=? n) && (n <=? 57))%N then Some (n - 48)%N
  else if ((65 <=? n) && (n <=? 70))%N then Some (n - 55)%N
  else if ((97 <=? n) && (n <=? 102))%N then Some (n - 87)%N
  else None.

Definition byte_of_nibbles (hi lo : N) : byte :=
  match Byte.of_N (16 * hi + lo) with
  | Some b => b
  | None => x00
  end.

(** Two hex digits per byte; an odd length or a non-hex digit is an error. *)
Fixpoint unhexlify_chars (cs : list ascii) : option bytes :=
  match cs with
  | [] => Some []
  | [_] => None
  | h :: l :: rest =>
      match xdigit_value h, xdigit_value l, unhexlify_chars rest with
      | Some hv, Some lv, Some bs => Some (byte_of_nibbles hv lv :: bs)
      | _, _, _ => None
      end
  end.

Definition unhexlify_str (s : string) : option bytes :=
  unhexlify_chars (list_ascii_of_string s).

(** ** The radio boundary *)

Inductive LoRaMode := LORA | LORAWAN.
Inductive LoRaRegion := AS923 | AU915 | EU868 | US915.
Inductive LoRaActivation := OTAA | ABP.

Record LoRaObj := { lora_mode : LoRaMode; lora_region : LoRaRegion }.

Inductive SockConst := AF_LORA | SOCK_RAW | SOL_LORA | SO_DR.
Record SocketObj := { sock_family : SockConst; sock_type : SockConst }.

(** What the hardware answers: the [n]-th poll of [has_joined()], the
    [n]-th [send(payload)] and the [n]-th [recvfrom(bufsize)]. *)
Record Radio := {
  has_joined_reply : nat -> bool;
  send_reply : nat -> bytes -> Z;
  recvfrom_reply : nat -> Z -> bytes * Z
}.

(** ** Traces *)

Inductive Method :=
| m_start
| m_start_lora_join
| m_wait_for_lora_join (attempts : Z)
| m_create_lora_socket
| m_lora_send (payload : bytes)
| m_lora_receive.

Inductive LogLevel := Info | Error.
Inductive LogArg := LInt (z : Z) | LBytes (b : bytes).

Inductive Event :=
| ECall (m : Method)                                    (* a method is entered *)
| ELoRaNew (mode : LoRaMode) (region : LoRaRegion)      (* LoRa(mode=, region=) *)
| EJoin (act : LoRaActivation) (auth : list bytes) (tmo : Z)  (* lora.join *)
| EHasJoined (answer : bool)                            (* lora.has_joined() *)
| ESocketNew (family type : SockConst)                  (* socket.socket(...) *)
| ESetsockopt (level opt : SockConst) (v : pyval)
| ESetblocking (flag : bool)
| ESend (payload : bytes) (accepted : Z)                (* socket.send *)
| ERecvfrom (bufsize : Z) (rx : bytes) (port : Z)       (* socket.recvfrom *)
| ESleep (ms : Z)                                       (* time.sleep, in ms *)
| ELog (lvl : LogLevel) (fmt : string) (args : list LogArg).

Definition is_poll (e : Event) : bool :=
  match e with EHasJoined _ => true | _ => false end.
Definition is_send (e : Event) : bool :=
  match e with ESend _ _ => true | _ => false end.
Definition is_recv (e : Event) : bool :=
  match e with ERecvfrom _ _ _ => true | _ => false end.
Definition is_join (e : Event) : bool :=
  match e with EJoin _ _ _ => true | _ => false end.

(** A call into the radio capability. *)
Definition is_radio (e : Event) : bool :=
  match e with
  | ELoRaNew _ _ | EJoin _ _ _ | EHasJoined _ | ESocketNew _ _
  | ESetsockopt _ _ _ | ESetblocking _ | ESend _ _ | ERecvfrom _ _ _ => true
  | ECall _ | ESleep _ | ELog _ _ _ => false
  end.

Definition count (p : Event -> bool) (t : list Event) : nat :=
  length (List.filter p t).

(** The durations slept, in order. *)
Fixpoint sleeps_of (t : list Event) : list Z :=
  match t with
  | [] => []
  | ESleep ms :: r => ms :: sleeps_of r
  | _ :: r => sleeps_of r
  end.

(** The methods entered, in order. *)
Fixpoint calls_of (t : list Event) : list Method :=
  match t with
  | [] => []
  | ECall m :: r => m :: calls_of r
  | _ :: r => calls_of r
  end.

(** The answers of the polls, in order. *)
Fixpoint polls_of (t : list Event) : list bool :=
  match t with
  | [] => []
  | EHasJoined b :: r => b :: polls_of r
  | _ :: r => polls_of r
  end.

(** Number of polls made after the first poll that answered "joined". *)
Fixpoint polls_after_first_join (bs : list bool) : nat :=
  match bs with
  | [] => 0%nat
  | true :: r => length r
  | false :: r => polls_after_first_join r
  end.

(** ** The manager object and the world *)

Definition dict := gmap string pyval.

Record LoRaManager := {
  manager : N;                       (* the owning device object, never used *)
  settings : gmap string dict;       (* settings.get(dotted_key) *)
  otaa_settings : option dict;       (* None is Python's None *)
  lora : option LoRaObj;             (* for these four, None is "unbound" *)
  lora_joined : option pyval;
  lora_socket : option pyval;
  socket : option SocketObj
}.

Record World := { self : LoRaManager; trace : list Event }.

Definition set_lora (v : LoRaObj) (s : LoRaManager) : LoRaManager :=
  {| manager := manager s; settings := settings s;
     otaa_settings := otaa_settings s; lora := Some v;
     lora_joined := lora_joined s; lora_socket := lora_socket s;
     socket := socket s |}.

Definition set_lora_joined (v : pyval) (s : LoRaManager) : LoRaManager :=
  {| manager := manager s; settings := settings s;
     otaa_settings := otaa_settings s; lora := lora s;
     lora_joined := Some v; lora_socket := lora_socket s;
     socket := socket s |}.

Definition set_lora_socket (v : pyval) (s : LoRaManager) : LoRaManager :=
  {| manager := manager s; settings := settings s;
     otaa_settings := otaa_settings s; lora := lora s;
     lora_joined := lora_joined s; lora_socket := Some v;
     socket := socket s |}.

Definition set_socket (v : SocketObj) (s : LoRaManager) : LoRaManager :=
  {| manager := manager s; settings := settings s;
     otaa_settings := otaa_settings s; lora := lora s;
     lora_joined := lora_joined s; lora_socket := lora_socket s;
     socket := Some v |}.

(** [LoRaManager.__init__] *)
Definition init (mgr : N) (cfg : gmap string dict) : World :=
  {| self := {| manager := mgr; settings := cfg;
                otaa_settings := cfg !! "networking.lora.otaa";
                lora := None; lora_joined := None; lora_socket := None;
                socket := None |};
     trace := [] |}.

(** ** The monad *)

Inductive Res (A : Type) : Type :=
| Ret (a : A)
| Raise (e : Exn)
| OutOfFuel.
Arguments Ret {A} a.
Arguments Raise {A} e.
Arguments OutOfFuel {A}.

Definition M (A : Type) : Type := World -> Res A * World.

Definition ret {A} (a : A) : M A := fun w => (Ret a, w).
Definition raise {A} (e : Exn) : M A := fun w => (Raise e, w).
Definition out_of_fuel {A} : M A := fun w => (OutOfFuel, w).

Definition bind {A B} (m : M A) (k : A -> M B) : M B :=
  fun w =>
    match m w with
    | (Ret a, w') => k a w'
    | (Raise e, w') => (Raise e, w')
    | (OutOfFuel, w') => (OutOfFuel, w')
    end.

#[global] Instance M_ret : MRet M := @ret.
#[global] Instance M_bind : MBind M := fun A B k m => bind m k.

Definition emit (e : Event) : M unit :=
  fun w => (Ret tt, {| self := self w; trace := (trace w ++ [e])%list |}).

Definition get_trace : M (list Event) := fun w => (Ret (trace w), w).

Definition modify (f : LoRaManager -> LoRaManager) : M unit :=
  fun w => (Ret tt, {| self := f (self w); trace := trace w |}).

(** Reading an attribute that may be unbound. *)
Definition getattr {A} (name : string) (f : LoRaManager -> option A) : M A :=
  fun w =>
    match f (self w) with
    | Some v => (Ret v, w)
    | None => (Raise (AttributeError name), w)
    end.

(** ** Names *)

(** The names bound at module level: the three imports, [log] and the class. *)
Definition module_globals : list string :=
  ["time"; "binascii"; "logging"; "log"; "LoRaManager"].

Definition builtins : list string := ["range"].

Definition lookup_name (n : string) : M unit :=
  if bool_decide (n ∈ (module_globals ++ builtins)%list) then ret tt
  else raise (NameError n).

(** [time.sleep], with the duration in milliseconds. *)
Definition sleep (ms : Z) : M unit :=
  lookup_name "time";; emit (ESleep ms).

Definition log_info (fmt : string) (args : list LogArg) : M unit :=
  lookup_name "log";; emit (ELog Info fmt args).

Definition log_error (fmt : string) (args : list LogArg) : M unit :=
  lookup_name "log";; emit (ELog Error fmt args).

(** [range(lo, hi)]: lo, lo+1, ..., hi-1; empty when hi <= lo. *)
Definition range_list (lo hi : Z) : list Z :=
  (fun i => lo + Z.of_nat i) <$> seq 0 (Z.to_nat (hi - lo)).

Definition range (lo hi : Z) : M (list Z) :=
  lookup_name "range";;
  mret (range_list lo hi).

Fixpoint for_each {A} (xs : list A) (body : A -> M unit) : M unit :=
  match xs with
  | [] => ret tt
  | x :: r => body x;; for_each r body
  end.

(** [self.otaa_settings[key]] *)
Definition otaa_getitem (key : string) : M pyval :=
  fun w =>
    match otaa_settings (self w) with
    | None => (Raise (TypeError "'NoneType' object is not subscriptable"), w)
    | Some d =>
        match d !! key with
        | Some v => (Ret v, w)
        | None => (Raise (KeyError key), w)
        end
    end.

(** [self.otaa_settings.get(key)] *)
Definition otaa_get (key : string) : M pyval :=
  fun w =>
    match otaa_settings (self w) with
    | None => (Raise (AttributeError "get"), w)
    | Some d =>
        match d !! key with
        | Some v => (Ret v, w)
        | None => (Ret PNone, w)
        end
    end.

(** [binascii.unhexlify(v)] *)
Definition unhexlify (v : pyval) : M bytes :=
  lookup_name "binascii";;
  match v with
  | PStr s =>
      match unhexlify_str s with
      | Some b => ret b
      | None => raise (ValueError "unhexlify")
      end
  | _ => raise (TypeError "unhexlify")
  end.

(** ** Calls into the radio *)

(** [LoRa(mode=..., region=...)] after [from network import LoRa]. *)
Definition LoRa_new (mode : LoRaMode) (region : LoRaRegion) : M LoRaObj :=
  emit (ELoRaNew mode region);;
  mret {| lora_mode := mode; lora_region := region |}.

(** [self.lora.join(activation=..., auth=..., timeout=...)] *)
Definition lora_join (act : LoRaActivation) (auth : list bytes) (tmo : Z)
  : M unit :=
  _ ← getattr "lora" lora;
  emit (EJoin act auth tmo).

(** [self.lora.has_joined()]: the radio answers its next poll. *)
Definition lora_has_joined (rad : Radio) : M bool :=
  _ ← getattr "lora" lora;
  t ← get_trace;
  let b := has_joined_reply rad (count is_poll t) in
  emit (EHasJoined b);;
  mret b.

(** [self.socket.send(payload)] *)
Definition socket_send (rad : Radio) (payload : bytes) : M Z :=
  _ ← getattr "socket" socket;
  t ← get_trace;
  let n := send_reply rad (count is_send t) payload in
  emit (ESend payload n);;
  mret n.

(** [self.socket.recvfrom(bufsize)] *)
Definition socket_recvfrom (rad : Radio) (bufsize : Z) : M (bytes * Z) :=
  _ ← getattr "socket" socket;
  t ← get_trace;
  let r := recvfrom_reply rad (count is_recv t) bufsize in
  emit (ERecvfrom bufsize r.1 r.2);;
  mret r.

(** ** The methods of LoRaManager

    Every method first records that it was entered ([ECall]).  The marker is
    bookkeeping of the embedding, so that statements can say which method
    ran and with which arguments; everything after it follows the source
    statement by statement. *)

Definition start_lora_join : M unit :=
  emit (ECall m_start_lora_join);;
  l ← LoRa_new LORAWAN EU868;
  modify (set_lora l);;
  v ← otaa_getitem "application_eui";
  app_eui ← unhexlify v;
  v ← otaa_getitem "application_key";
  app_key ← unhexlify v;
  d ← otaa_get "device_eui";
  match d with
  | PNone => lora_join OTAA [app_eui; app_key] 0
  | _ =>
      v ← otaa_getitem "device_eui";
      dev_eui ← unhexlify v;
      lora_join OTAA [dev_eui; app_eui; app_key] 0
  end.

(** [while not self.lora.has_joined(): ...], at most [fuel] polls. *)
Fixpoint while_not_joined (rad : Radio) (fuel : nat) : M unit :=
  match fuel with
  | O => out_of_fuel
  | S f =>
      j ← lora_has_joined rad;
      if negb j then
        sleep 2500;;
        sleep 100;;
        log_info "[LoRA] Not joined yet..." [];;
        while_not_joined rad f
      else mret tt
  end.

Definition wait_for_lora_join (rad : Radio) (fuel : nat) (attempts : Z)
  : M pyval :=
  emit (ECall (m_wait_for_lora_join attempts));;
  modify (set_lora_joined PNone);;
  r ← range 0 attempts;
  for_each r (fun _ => while_not_joined rad fuel);;
  j ← lora_has_joined rad;
  modify (set_lora_joined (PBool j));;
  v ← getattr "lora_joined" lora_joined;
  (if truthy v then log_info "[LoRA] joined..." []
   else log_info "[LoRa] did not join in %s attempts" [LInt attempts]);;
  getattr "lora_joined" lora_joined.

Definition create_lora_socket : M pyval :=
  emit (ECall m_create_lora_socket);;
  modify (set_lora_socket PNone);;
  (* self.socket = socket.socket(socket.AF_LORA, socket.SOCK_RAW) *)
  lookup_name "socket";;
  lookup_name "socket";;
  lookup_name "socket";;
  emit (ESocketNew AF_LORA SOCK_RAW);;
  modify (set_socket {| sock_family := AF_LORA; sock_type := SOCK_RAW |});;
  (* self.socket.setsockopt(socket.SOL_LORA, socket.SO_DR, datarate) *)
  _ ← getattr "socket" socket;
  lookup_name "socket";;
  lookup_name "socket";;
  dr ← otaa_getitem "datarate";
  emit (ESetsockopt SOL_LORA SO_DR dr);;
  (* self.socket.setblocking(False) *)
  _ ← getattr "socket" socket;
  emit (ESetblocking false);;
  modify (set_lora_socket (PBool true));;
  log_info "[LoRa] socket created" [];;
  r ← range 0 2;
  for_each r (fun _ => sleep 100);;
  sleep 4000;;
  getattr "lora_socket" lora_socket.

Definition start (rad : Radio) (fuel : nat) : M unit :=
  emit (ECall m_start);;
  start_lora_join;;
  wait_for_lora_join rad fuel 42;;
  sleep 2500;;
  j ← getattr "lora_joined" lora_joined;
  if truthy j then
    create_lora_socket;; mret tt
  else
    log_error "[LoRa] Could not join network" [].

Definition lora_send (rad : Radio) (payload : bytes) : M Z :=
  emit (ECall (m_lora_send payload));;
  success ← socket_send rad payload;
  r ← range 0 2;
  for_each r (fun _ => sleep 100);;
  mret success.

Definition lora_receive (rad : Radio) : M (bytes * Z) :=
  emit (ECall m_lora_receive);;
  rp ← socket_recvfrom rad 256;
  (if bytes_truthy rp.1 then
     log_info "[LoRa] Received: {}, on port: {}" [LBytes rp.1; LInt rp.2]
   else mret tt);;
  sleep 6000;;
  mret rp.

(** ** Test doubles *)

Definition radio_of (polls : nat -> bool) : Radio :=
  {| has_joined_reply := polls;
     send_reply := fun _ p => Z.of_nat (length p);
     recvfrom_reply := fun _ _ => ([], 0) |}.

Definition never_joined : Radio := radio_of (fun _ => false).
Definition always_joined : Radio := radio_of (fun _ => true).
(** Joined from the second poll on. *)
Definition joins_at_second_poll : Radio := radio_of (fun n => (1 <=? n)%nat).
(** Joined for the first 42 polls, not joined any more afterwards. *)
Definition lost_after_42 : Radio := radio_of (fun n => (n <? 42)%nat).
(** Joined at the first poll, not joined any more afterwards. *)
Definition joined_then_lost : Radio := radio_of (fun n => (n =? 0)%nat).

Definition otaa_ttn : dict :=
  {[ "application_eui" := PStr "70B3D57ED0001234";
     "application_key" := PStr "000102030405060708090A0B0C0D0E0F";
     "datarate" := PInt 5 ]}.

Definition otaa_ttn_dev : dict := <[ "device_eui" := PStr "AA11" ]> otaa_ttn.

Definition cfg_of (d : dict) : gmap string dict :=
  {[ "networking.lora.otaa" := d ]}.

(** Answers every [recvfrom] with two bytes on port 2, accepts one byte of
    every [send]. *)
Definition chatty : Radio :=
  {| has_joined_reply := fun _ => true;
     send_reply := fun _ _ => 1;
     recvfrom_reply := fun _ _ => ([x01; x02], 2) |}.

Definition fresh : World := init 1 (cfg_of otaa_ttn).

(** A manager whose socket attributes were bound from outside the class. *)
Definition ready_world : World :=
  {| self := set_lora_socket (PBool true)
               (set_socket {| sock_family := AF_LORA; sock_type := SOCK_RAW |}
                  (self fresh));
     trace := [] |}.
Definition fresh_dev : World := init 1 (cfg_of otaa_ttn_dev).


(** The events a call added to the trace. *)
Definition delta (w w' : World) : list Event :=
  drop (length (trace w)) (trace w').

(** ** Vocabulary of the statements *)

(** A credential of the OTAA settings, hex-decoded. *)
Definition decode_key (d : dict) (key : string) : option bytes :=
  match d !! key with
  | Some (PStr s) => unhexlify_str s
  | _ => None
  end.

(** [self.otaa_settings.get('device_eui') is None] *)
Definition device_eui_absent (d : dict) : bool :=
  match d !! "device_eui" with
  | None | Some PNone => true
  | Some _ => false
  end.

(** [auth] is the tuple of decoded credentials for the settings [d]: two
    identifiers without a device identifier, three with one. *)
Definition auth_for (d : dict) (auth : list bytes) : Prop :=
  exists ab kb,
    decode_key d "application_eui" = Some ab /\
    decode_key d "application_key" = Some kb /\
    ((device_eui_absent d = true /\ auth = [ab; kb]) \/
     (device_eui_absent d = false /\
      exists db, decode_key d "device_eui" = Some db /\ auth = [db; ab; kb])).

(** The radio object built by [start_lora_join]. *)
Definition the_lora : LoRaObj := {| lora_mode := LORAWAN; lora_region := EU868 |}.

(** The manager after [start_lora_join] has built the radio object. *)
Definition with_lora (w : World) (d : list Event) : World :=
  {| self := set_lora the_lora (self w); trace := (trace w ++ d)%list |}.

(** One round of the inner loop that saw "not joined". *)
Definition not_yet : list Event :=
  [EHasJoined false; ESleep 2500; ESleep 100;
   ELog Info "[LoRA] Not joined yet..." []].

Fixpoint rounds (k : nat) : list Event :=
  match k with
  | O => []
  | S k' => (not_yet ++ rounds k')%list
  end.

(** The world in which the outer loop of [wait_for_lora_join] starts. *)
Definition waiting (attempts : Z) (w : World) : World :=
  {| self := set_lora_joined PNone (self w);
     trace := (trace w ++ [ECall (m_wait_for_lora_join attempts)])%list |}.

(** What [wait_for_lora_join] does with the answer [b] of its last poll. *)
Definition joined_log (attempts : Z) (b : bool) : Event :=
  if b then ELog Info "[LoRA] joined..." []
  else ELog Info "[LoRa] did not join in %s attempts" [LInt attempts].

Definition waited (attempts : Z) (b : bool) (w : World) : World :=
  {| self := set_lora_joined (PBool b) (self w);
     trace := (trace w ++ [EHasJoined b; joined_log attempts b])%list |}.

(** What the waiting itself adds to the trace: polls, sleeps, info lines. *)
Definition is_waiting_event (e : Event) : bool :=
  match e with
  | EHasJoined _ | ESleep _ | ELog Info _ _ => true
  | _ => false
  end.

(** The socket-related attributes together with the radio object. *)
Definition sockets (s : LoRaManager) : option LoRaObj * option pyval * option SocketObj :=
  (lora s, lora_socket s, socket s).

(** The index of the next poll. *)
Definition next_poll (w : World) : nat := count is_poll (trace w).

(** Once the radio has reported "joined", it keeps reporting it. *)
Definition persistent (rad : Radio) : Prop :=
  forall i j, (i <= j)%nat ->
    has_joined_reply rad i = true -> has_joined_reply rad j = true.

(** The session socket exists: [create_lora_socket] ran to its end. *)
Definition Ready (s : LoRaManager) : Prop :=
  lora_socket s = Some (PBool true) /\ socket s <> None.

(** A call of one of the public methods. *)
Definition invoke (rad : Radio) (fuel : nat) (m : Method) (w : World) : World :=
  match m with
  | m_start => (start rad fuel w).2
  | m_start_lora_join => (start_lora_join w).2
  | m_wait_for_lora_join attempts => (wait_for_lora_join rad fuel attempts w).2
  | m_create_lora_socket => (create_lora_socket w).2
  | m_lora_send payload => (lora_send rad payload w).2
  | m_lora_receive => (lora_receive rad w).2
  end.

(** The worlds a manager can be in: constructed by [__init__], then any
    sequence of method calls, with any arguments. *)
Inductive reachable (rad : Radio) : World -> Prop :=
| reach_init mgr cfg : reachable rad (init mgr cfg)
| reach_call w fuel m : reachable rad w -> reachable rad (invoke rad fuel m w).

(** ** Further vocabulary: time and polls *)

(** The time slept, in milliseconds. *)
Definition total_sleep (t : list Event) : Z :=
  fold_right Z.add 0 (sleeps_of t).

(** A poll that was answered "not joined". *)
Definition is_not_joined (e : Event) : bool :=
  match e with EHasJoined false => true | _ => false end.

(** The attributes a join sequence may leave behind for the socket:
    [lora_socket] unbound or None, [socket] unbound. *)
Definition socketless (s : LoRaManager) : Prop :=
  socket s = None /\ (lora_socket s = None \/ lora_socket s = Some PNone).

(** * The host-side agent (tools/terkin.py)

    The agent watches the local network for Pycom devices, recognises them
    by the prefix of their MAC address and pulls them into or out of
    maintenance mode.  Python strings are Rocq strings whose characters are
    the code points below 256. *)

Module Terkin.

(** ** Strings *)

(** [str.lower()] on one character: A-Z and the Latin-1 capitals
    (0xC0-0xDE without the multiplication sign 0xD7) move up by 32. *)
Definition lower_char (c : ascii) : ascii :=
  let n := N_of_ascii c in
  if (((65 <=? n) && (n <=? 90))
      || (((192 <=? n) && (n <=? 222)) && negb (n =? 215)))%N
  then ascii_of_N (n + 32)
  else c.

Fixpoint str_map (f : ascii -> ascii) (s : string) : string :=
  match s with
  | EmptyString => EmptyString
  | String c r => String (f c) (str_map f r)
  end.

Fixpoint str_filter (p : ascii -> bool) (s : string) : string :=
  match s with
  | EmptyString => EmptyString
  | String c r => if p c then String c (str_filter p r) else str_filter p r
  end.

(** [s.lower()] *)
Definition lower (s : string) : string := str_map lower_char s.

(** [s.replace(c, '')] for a pattern [c] of one character. *)
Definition remove_char (c : ascii) (s : string) : string :=
  str_filter (fun x => negb (Ascii.eqb x c)) s.

(** [s.startswith(p)] *)
Fixpoint startswith (s p : string) : bool :=
  match p, s with
  | EmptyString, _ => true
  | String _ _, EmptyString => false
  | String b q, String a r => Ascii.eqb a b && startswith r q
  end.

(** [sep.join(parts)] *)
Fixpoint join (sep : string) (parts : list string) : string :=
  match parts with
  | [] => EmptyString
  | [p] => p
  | p :: r => (p ++ sep ++ join sep r)%string
  end.

Definition normalize_mac_address (mac_address : string) : string :=
  remove_char "." (remove_char "-" (remove_char ":" (lower mac_address))).

(** Taking [n] items from the one shared iterator: None when it runs dry on
    the way, and the items taken by then are gone. *)
Fixpoint pull (n : nat) (s : string) : option (string * string) :=
  match n with
  | O => Some (EmptyString, s)
  | S k =>
      match s with
      | EmptyString => None
      | String c r =>
          match pull k r with
          | Some (part, rest) => Some (String c part, rest)
          | None => None
          end
      end
  end.

(** [zip] over [n] references to one iterator, at most [fuel] tuples. *)
Fixpoint zip_shared (fuel n : nat) (s : string) : list string :=
  match fuel with
  | O => []
  | S f =>
      match pull n s with
      | Some (part, rest) => part :: zip_shared f n rest
      | None => []
      end
  end.

(** [str_grouper(n, iterable)] on a string; [zip()] of no iterators yields
    nothing.  Every tuple consumes [n >= 1] characters, so the length of the
    string bounds the number of tuples. *)
Definition str_grouper (n : nat) (iterable : string) : list string :=
  match n with
  | O => []
  | S _ => zip_shared (String.length iterable) n iterable
  end.

Definition format_mac_address (mac_address : string) : string :=
  lower (join ":" (str_grouper 2 mac_address)).

(** The prefixes as the main program prepares them:
    [list(map(format_mac_address, map(normalize_mac_address, mac_prefixes)))] *)
Definition prepare_prefixes (mac_prefixes : list string) : list string :=
  map format_mac_address (map normalize_mac_address mac_prefixes).

(** One of the three separators that normalising removes. *)
Definition is_sep (x : ascii) : bool :=
  (Ascii.eqb x ":" || Ascii.eqb x "-" || Ascii.eqb x ".")%bool.

(** The characters of a string. *)
Definition chars (s : string) : list ascii := list_ascii_of_string s.

Fixpoint str_concat (parts : list string) : string :=
  match parts with
  | [] => EmptyString
  | p :: r => (p ++ str_concat r)%string
  end.

(** ** The agent's world *)

Inductive HostExn : Type :=
| HTypeError (what : string)
| gaierror (errno : Z).

Inductive HRes (A : Type) : Type :=
| HRet (a : A)
| HRaise (e : HostExn)
| HOutOfFuel.
Arguments HRet {A} a.
Arguments HRaise {A} e.
Arguments HOutOfFuel {A}.

(** The ARP layer of a sniffed packet. *)
Record Arp := { op : Z; hwsrc : string; psrc : string; pdst : string }.

(** A packet: its ARP layer, if it has one. *)
Definition Packet := option Arp.

Inductive Level := DEBUG | INFO | ERROR.

(** The log lines of the agent, by what they say. *)
Inductive Message :=
| hostname_found (hostname ip_address : string)
| waiting_for_hostname (hostname : string)
| wait_failed (hostname : string)
| arp_request (hw ip target : string)
| arp_response (hw ip : string)
| found_device (mac ip : string)
| connecting (ip : string) (port : Z)
| pulling (ip : string)
| releasing (ip : string)
| not_implemented (command : string)
| waiting_for_devices (prefixes : option (list string))
| starting_monitor
| networks_found (networks : list string)
| discovering (network : string)
| arp_ping_request (destination : string).

#[warnings="-register-all"]
Inductive HostEvent :=
| HLog (lvl : Level) (msg : Message)
| HStdoutFlush
| HStderrWrite (s : string)
| HStderrFlush
| HShow (a : Arp)                           (* pkt[ARP].show() *)
| HResolve (hostname : string)              (* socket.gethostbyname *)
| HSleep (ms : Z)
| HSocketNew                                (* socket(AF_INET, SOCK_DGRAM) *)
| HSetblocking (flag : bool)
| HConnect (ip : string) (port : Z)
| HSend (payload : string)
| HSystem (command : string)                (* os.system *)
| HWriteFile (path : list string) (content : string)
| HNotify (title text : string)             (* the desktop notification *)
| HSrp (destination : string) (timeout : Z) (* srp: ARP requests, broadcast *)
| HThread (events : list HostEvent).        (* a started thread, and what it does *)

Record NetworkMember := { mac : string; ip : string }.

Record NetworkMonitor := {
  mac_prefixes : option (list string);      (* None is Python's None *)
  mode : option Z
}.

Record HostWorld := { monitor : NetworkMonitor; out : list HostEvent }.

Definition HM (A : Type) : Type := HostWorld -> HRes A * HostWorld.

Definition hret {A} (a : A) : HM A := fun w => (HRet a, w).
Definition hraise {A} (e : HostExn) : HM A := fun w => (HRaise e, w).
Definition hout_of_fuel {A} : HM A := fun w => (HOutOfFuel, w).

Definition hbind {A B} (m : HM A) (k : A -> HM B) : HM B :=
  fun w =>
    match m w with
    | (HRet a, w') => k a w'
    | (HRaise e, w') => (HRaise e, w')
    | (HOutOfFuel, w') => (HOutOfFuel, w')
    end.

#[global] Instance HM_ret : MRet HM := @hret.
#[global] Instance HM_bind : MBind HM := fun A B k m => hbind m k.

(** [try: m  except Exception as ex: handler] *)
Definition try_except {A} (m : HM A) (handler : HostExn -> HM A) : HM A :=
  fun w =>
    match m w with
    | (HRaise e, w') => handler e w'
    | other => other
    end.

Definition say (e : HostEvent) : HM unit :=
  fun w => (HRet tt, {| monitor := monitor w; out := (out w ++ [e])%list |}).

Definition get_out : HM (list HostEvent) := fun w => (HRet (out w), w).
Definition get_mode : HM (option Z) := fun w => (HRet (mode (monitor w)), w).
Definition set_mode (m : option Z) : HM unit :=
  fun w => (HRet tt, {| monitor := {| mac_prefixes := mac_prefixes (monitor w);
                                      mode := m |};
                        out := out w |}).

Fixpoint hfor_each {A} (xs : list A) (body : A -> HM unit) : HM unit :=
  match xs with
  | [] => mret tt
  | x :: r => body x;; hfor_each r body
  end.

Definition hcount (p : HostEvent -> bool) (t : list HostEvent) : nat :=
  length (List.filter p t).

Definition hdelta (w w' : HostWorld) : list HostEvent :=
  drop (length (out w)) (out w').

(** ** Waiting for a hostname *)

Definition HOSTNAME : string := "espressif".
Definition INTERVAL : Z := 1000.           (* 1.0 s *)
Definition newline : string := String "010" "".

(** What the resolver answers to the n-th lookup. *)
Inductive Lookup := Found (ip_address : string) | Failed (errno : Z).
Definition Resolver := nat -> Lookup.

Definition is_resolve (e : HostEvent) : bool :=
  match e with HResolve _ => true | _ => false end.

Definition gethostbyname (res : Resolver) (hostname : string) : HM Lookup :=
  t ← get_out;
  say (HResolve hostname);;
  mret (res (hcount is_resolve t)).

(** [hostname or self.HOSTNAME] *)
Definition or_default (hostname : option string) : string :=
  match hostname with
  | Some h => if String.eqb h "" then HOSTNAME else h
  | None => HOSTNAME
  end.

(** The [while True] of [wait_hostname], with its two loop variables. *)
Fixpoint wait_hostname_loop (res : Resolver) (fuel : nat) (hostname : string)
  (waiting : bool) (count : Z) : HM string :=
  match fuel with
  | O => hout_of_fuel
  | S f =>
      a ← gethostbyname res hostname;
      match a with
      | Found ip_address =>
          (if waiting then say (HStderrWrite newline) else mret tt);;
          say (HLog INFO (hostname_found hostname ip_address));;
          mret ip_address
      | Failed errno =>
          if errno =? 8 then
            (if waiting then
               say (HStderrWrite ".");;
               (if count mod 79 =? 0 then say (HStderrWrite newline)
                else mret tt);;
               say HStderrFlush
             else
               say (HLog INFO (waiting_for_hostname hostname)));;
            say (HSleep INTERVAL);;
            wait_hostname_loop res f hostname true (count + 1)
          else hraise (gaierror errno)
      end
  end.

(** What one unsuccessful round of the loop writes. *)
Definition round_events (hostname : string) (waiting : bool) (count : Z)
  : list HostEvent :=
  (HResolve hostname ::
   (if waiting then
      [HStderrWrite "."] ++
      (if count mod 79 =? 0 then [HStderrWrite newline] else []) ++
      [HStderrFlush]
    else [HLog INFO (waiting_for_hostname hostname)]) ++
   [HSleep INTERVAL])%list.

Definition wait_hostname (res : Resolver) (fuel : nat)
  (hostname : option string) : HM string :=
  wait_hostname_loop res fuel (or_default hostname) false 0.

Fixpoint wait_hostname_forever_loop (res : Resolver) (fuel : nat)
  (hostname : string) : HM unit :=
  match fuel with
  | O => hout_of_fuel
  | S f =>
      try_except
        (_ ← wait_hostname res f (Some hostname); mret tt)
        (fun _ => say (HLog ERROR (wait_failed hostname)));;
      say (HSleep 1000);;
      wait_hostname_forever_loop res f hostname
  end.

Definition wait_hostname_forever (res : Resolver) (fuel : nat)
  (hostname : option string) : HM unit :=
  wait_hostname_forever_loop res fuel (or_default hostname).

(** ** The network monitor *)

Definition APP_NAME : string := "MicroTerkin Agent".
Definition maintenance : Z := 1.
Definition field_mode : Z := 2.
Definition TRACE : bool := false.

(** [NetworkMonitor(mac_prefixes=..., mode=...)] *)
Definition new_monitor (prefixes : option (list string)) (m : option Z)
  : NetworkMonitor :=
  {| mac_prefixes := prefixes; mode := m |}.

Definition maintain : HM unit := set_mode (Some maintenance).
Definition field : HM unit := set_mode (Some field_mode).

Definition arp_display (a : Arp) : HM unit :=
  (if op a =? 1 then say (HLog DEBUG (arp_request (hwsrc a) (psrc a) (pdst a)))
   else mret tt);;
  (if op a =? 2 then say (HLog DEBUG (arp_response (hwsrc a) (psrc a)))
   else mret tt);;
  (if TRACE then say (HShow a) else mret tt);;
  say HStdoutFlush.

(** The loop of [match_mac_prefix] over the prefixes. *)
Fixpoint any_prefix (mac_address : string) (prefixes : list string) : bool :=
  match prefixes with
  | [] => false
  | prefix :: r =>
      if startswith mac_address (normalize_mac_address prefix) then true
      else any_prefix mac_address r
  end.

Definition match_mac_prefix (mac_address : string) : HM bool :=
  fun w =>
    let mac_address := normalize_mac_address mac_address in
    match mac_prefixes (monitor w) with
    | Some prefixes => (HRet (any_prefix mac_address prefixes), w)
    | None => (HRaise (HTypeError "'NoneType' object is not iterable"), w)
    end.

Definition toggle_maintenance (member : NetworkMember) : HM unit :=
  let port := 666 in
  say (HLog INFO (connecting (ip member) port));;
  say HSocketNew;;
  say (HSetblocking false);;
  say (HConnect (ip member) port);;
  m ← get_mode;
  if bool_decide (m = Some maintenance) then
    say (HLog INFO (pulling (ip member)));;
    say (HSend "maintenance.enable()")
  else if bool_decide (m = Some field_mode) then
    say (HLog INFO (releasing (ip member)));;
    say (HSend "maintenance.disable()")
  else mret tt.

Definition write_floating_address (address : string) : HM unit :=
  say (HSystem "mkdir -p .terkin");;
  say (HWriteFile [".terkin"; "floatip"] address).

(** The desktop notification; how it is delivered depends on the platform,
    and a failure to deliver it is swallowed. *)
Definition notify_user (title text : string) : HM unit :=
  say (HNotify title text).

Definition device_action (member : NetworkMember) : HM unit :=
  m ← get_mode;
  (match m with
   | Some _ => toggle_maintenance member
   | None => mret tt
   end);;
  write_floating_address (ip member);;
  notify_user APP_NAME
    ("Device '" ++ mac member ++ "' has" ++ newline ++ "IP address '"
       ++ ip member ++ "'")%string.

Definition check_esp32 (pkt : Packet) : HM unit :=
  match pkt with
  | None => mret tt
  | Some a =>
      arp_display a;;
      skip ← (if String.eqb (psrc a) "0.0.0.0" then mret true
              else m ← match_mac_prefix (hwsrc a); mret (negb m));
      if (skip : bool) then mret tt
      else
        let member := {| mac := hwsrc a; ip := psrc a |} in
        say (HLog INFO (found_device (mac member) (ip member)));;
        device_action member
  end.

(** [run_monitor], with what [boot_monitor] does to the monitor left open. *)
Definition run_monitor (command : string) (prefixes : option (list string))
  (boot_monitor : HM unit) : HM unit :=
  fun w =>
    let w0 := {| monitor := new_monitor prefixes None; out := out w |} in
    (if String.eqb command "maintain" then maintain;; boot_monitor
     else if String.eqb command "field" then field;; boot_monitor
     else if String.eqb command "monitor" then boot_monitor
     else say (HLog ERROR (not_implemented command))) w0.

(** [arp_monitor]: [sniff] hands every packet that arrives, here [pkts] in
    their order, to [check_esp32]. *)
Definition arp_monitor (pkts : list Packet) : HM unit :=
  t ← (fun w => (HRet (mac_prefixes (monitor w)), w)) : HM _;
  say (HLog INFO (waiting_for_devices t));;
  hfor_each pkts check_esp32.

(** [arp_ping]: the log line, then [srp] broadcasts ARP requests for every
    address of [destination] and collects answers for 10 s.  The answered
    and unanswered packets it returns are used by no caller modelled here. *)
Definition arp_ping (destination : string) : HM unit :=
  say (HLog INFO (arp_ping_request destination));;
  say (HSrp destination 10000).

Definition arp_discover (destination : string) (delay : Z) : HM unit :=
  say (HSleep delay);;
  arp_ping destination.

(** [Thread(target=body).start()]: the thread works on the same monitor
    object; its events are kept together, in their own order, under the
    event of its start, since when they happen relative to the starting flow
    is open.  An exception in the thread ends the thread only. *)
Definition thread_start (body : HM unit) : HM unit :=
  fun w =>
    (HRet tt,
     {| monitor := monitor w;
        out := (out w ++
                [HThread (out (body {| monitor := monitor w; out := [] |}).2)])%list |}).

(** [arp_discover_background]: the ARP ping of a network, in a thread that
    waits 0.5 s first. *)
Definition arp_discover_background (destination : string) : HM unit :=
  thread_start (arp_discover destination 500).

(** All events of a trace, those of the threads included. *)
Fixpoint flatten (e : HostEvent) : list HostEvent :=
  match e with
  | HThread events =>
      (fix go (l : list HostEvent) : list HostEvent :=
         match l with
         | [] => []
         | x :: r => (flatten x ++ go r)%list
         end) events
  | other => [other]
  end.

Definition all_events (t : list HostEvent) : list HostEvent :=
  flat_map flatten t.

(** The networks pinged, in order. *)
Fixpoint pings (t : list HostEvent) : list string :=
  match t with
  | [] => []
  | HSrp destination _ :: r => destination :: pings r
  | _ :: r => pings r
  end.

Definition is_thread (e : HostEvent) : bool :=
  match e with HThread _ => true | _ => false end.

(** An event of the main flow that is neither a thread nor an ARP ping. *)
Definition plain (e : HostEvent) : bool :=
  match e with
  | HThread _ | HSrp _ _ => false
  | _ => true
  end.

(** [emits p m]: [m] leaves the monitor as it is and adds only events of
    the kind [p]. *)
Definition emits {A} (p : HostEvent -> bool) (m : HM A) : Prop :=
  forall w, exists r d,
    m w = (r, {| monitor := monitor w; out := (out w ++ d)%list |}) /\
    forallb p d = true.

(** What the discovery of the networks adds to the trace. *)
Definition discovery (networks : list string) : list HostEvent :=
  flat_map (fun network =>
    [HLog INFO (discovering network);
     HThread [HSleep 500; HLog INFO (arp_ping_request network);
              HSrp network 10000]]) networks.

(** What [boot_monitor] does before the first packet. *)
Definition prelude (networks : list string) (prefixes : option (list string))
  : list HostEvent :=
  ([HLog INFO starting_monitor;
    HNotify APP_NAME "Starting network monitor";
    HLog INFO (networks_found networks)] ++
   discovery networks ++
   [HLog INFO (waiting_for_devices prefixes)])%list.

(** [boot_monitor], given the networks that [get_local_networks] finds and
    the packets that arrive afterwards. *)
Definition boot_monitor (networks : list string) (pkts : list Packet)
  : HM unit :=
  say (HLog INFO starting_monitor);;
  notify_user APP_NAME "Starting network monitor";;
  say (HLog INFO (networks_found networks));;
  hfor_each networks (fun network =>
    say (HLog INFO (discovering network));;
    arp_discover_background network);;
  arp_monitor pkts.

(** Sending the given command to a device. *)
Definition sends (payload : string) (e : HostEvent) : bool :=
  match e with HSend p => String.eqb p payload | _ => false end.

(** A device is taken up when its packet has an ARP layer, a source address
    other than 0.0.0.0 and a MAC address with one of the prefixes. *)
Definition accepted (prefixes : list string) (pkt : Packet) : bool :=
  match pkt with
  | None => false
  | Some a =>
      negb (String.eqb (psrc a) "0.0.0.0")
      && any_prefix (normalize_mac_address (hwsrc a)) prefixes
  end.

(** Talking to a device over UDP. *)
Definition is_udp (e : HostEvent) : bool :=
  match e with
  | HSocketNew | HSetblocking _ | HConnect _ _ | HSend _ => true
  | _ => false
  end.

(** Anything done about a device: UDP, the address file, the notification. *)
Definition is_action (e : HostEvent) : bool :=
  match e with
  | HSocketNew | HSetblocking _ | HConnect _ _ | HSend _
  | HSystem _ | HWriteFile _ _ | HNotify _ _ => true
  | _ => false
  end.

Fixpoint hsleeps (t : list HostEvent) : list Z :=
  match t with
  | [] => []
  | HSleep ms :: r => ms :: hsleeps r
  | _ :: r => hsleeps r
  end.

Definition is_dot (e : HostEvent) : bool :=
  match e with HStderrWrite s => String.eqb s "." | _ => false end.

(** Test doubles. *)
Definition host0 (prefixes : option (list string)) (m : option Z) : HostWorld :=
  {| monitor := new_monitor prefixes m; out := [] |}.

Definition wipy : Packet :=
  Some {| op := 1; hwsrc := "30:AE:A4:12:34:56"; psrc := "192.168.178.20";
          pdst := "192.168.178.1" |}.

(** The resolver that fails twice with errno 8 and then finds the host. *)
Definition third_time_lucky : Resolver :=
  fun n => if (n <? 2)%nat then Failed 8 else Found "192.168.178.20".

End Terkin.

(** ** Frame conditions

    [unchanged I p w w']: going from [w] to [w'] left the part [I] of the
    manager object alone and only added events of the kind [p]. *)

Definition unchanged {X} (I : LoRaManager -> X) (p : Event -> bool)
  (w w' : World) : Prop :=
  I (self w') = I (self w) /\
  exists d, trace w' = (trace w ++ d)%list /\ forallb p d = true.

Definition keeps {A X} (I : LoRaManager -> X) (p : Event -> bool) (m : M A)
  : Prop :=
  forall w r w', m w = (r, w') -> unchanged I p w w'.

Section Frame.
Context {X : Type} (I : LoRaManager -> X) (p : Event -> bool).

Lemma unchanged_refl w : unchanged I p w w.
Proof.
  split; [reflexivity|]. exists []. rewrite app_nil_r. auto.
Qed.

Lemma unchanged_trans w1 w2 w3 :
  unchanged I p w1 w2 -> unchanged I p w2 w3 -> unchanged I p w1 w3.
Proof.
  intros [H1 (d1 & T1 & F1)] [H2 (d2 & T2 & F2)]. split.
  - congruence.
  - exists (d1 ++ d2)%list. rewrite T2, T1, <- app_assoc, forallb_app, F1, F2.
    auto.
Qed.

Lemma keeps_ret {A} (a : A) : keeps I p (mret a).
Proof. intros w r w' [= <- <-]. apply unchanged_refl. Qed.

Lemma keeps_raise {A} e : keeps I p (@raise A e).
Proof. intros w r w' [= <- <-]. apply unchanged_refl. Qed.

Lemma keeps_out_of_fuel {A} : keeps I p (@out_of_fuel A).
Proof. intros w r w' [= <- <-]. apply unchanged_refl. Qed.

Lemma keeps_bind {A B} (m : M A) (k : A -> M B) :
  keeps I p m -> (forall a, keeps I p (k a)) -> keeps I p (m ≫= k).
Proof.
  intros Hm Hk w r w'. unfold mbind, M_bind, bind.
  destruct (m w) as [[a|e|] w1] eqn:E; intros H.
  - eapply unchanged_trans; [eapply Hm, E | eapply Hk, H].
  - injection H as <- <-. eapply Hm, E.
  - injection H as <- <-. eapply Hm, E.
Qed.

Lemma keeps_emit e : p e = true -> keeps I p (emit e).
Proof.
  intros He w r w' [= <- <-]. split; [reflexivity|].
  exists [e]. simpl. rewrite He. auto.
Qed.

Lemma keeps_modify f : (forall s, I (f s) = I s) -> keeps I p (modify f).
Proof.
  intros Hf w r w' [= <- <-]. split; [apply Hf|].
  exists []. simpl. rewrite app_nil_r. auto.
Qed.

Lemma keeps_get_trace : keeps I p get_trace.
Proof. intros w r w' [= <- <-]. apply unchanged_refl. Qed.

Lemma keeps_getattr {A} n (f : LoRaManager -> option A) :
  keeps I p (getattr n f).
Proof.
  intros w r w'. unfold getattr.
  destruct (f (self w)); intros [= <- <-]; apply unchanged_refl.
Qed.

Lemma keeps_otaa_getitem key : keeps I p (otaa_getitem key).
Proof.
  intros w r w'. unfold otaa_getitem.
  destruct (otaa_settings (self w)) as [d|]; [destruct (d !! key)|];
    intros [= <- <-]; apply unchanged_refl.
Qed.

Lemma keeps_otaa_get key : keeps I p (otaa_get key).
Proof.
  intros w r w'. unfold otaa_get.
  destruct (otaa_settings (self w)) as [d|]; [destruct (d !! key)|];
    intros [= <- <-]; apply unchanged_refl.
Qed.

Lemma keeps_lookup_name n : keeps I p (lookup_name n).
Proof.
  unfold lookup_name. case_bool_decide; [apply keeps_ret|apply keeps_raise].
Qed.

Lemma keeps_for_each {A} (xs : list A) body :
  (forall x, keeps I p (body x)) -> keeps I p (for_each xs body).
Proof.
  intros Hb. induction xs as [|x xs IH]; simpl.
  - apply keeps_ret.
  - apply keeps_bind; auto.
Qed.
End Frame.

(** Splits a computation along its binds and branches and closes the leaves
    with the primitive frame lemmas. *)
Ltac frame :=
  repeat first
    [ apply keeps_bind; [|intros ?]
    | apply keeps_ret | apply keeps_raise | apply keeps_out_of_fuel
    | apply keeps_get_trace | apply keeps_getattr
    | apply keeps_otaa_getitem | apply keeps_otaa_get
    | apply keeps_lookup_name
    | apply keeps_emit; reflexivity
    | apply keeps_modify; intros ?; reflexivity
    | apply keeps_for_each; intros ?
    | match goal with
      | |- keeps _ _ (match ?x with _ => _ end) => destruct x
      end ].

Section FrameMethods.
Context {X : Type} (I : LoRaManager -> X) (p : Event -> bool).

Lemma keeps_sleep ms : p (ESleep ms) = true -> keeps I p (sleep ms).
Proof. intros H. unfold sleep. frame. apply keeps_emit, H. Qed.

Lemma keeps_log_info fmt args :
  p (ELog Info fmt args) = true -> keeps I p (log_info fmt args).
Proof. intros H. unfold log_info. frame. apply keeps_emit, H. Qed.

Lemma keeps_log_error fmt args :
  p (ELog Error fmt args) = true -> keeps I p (log_error fmt args).
Proof. intros H. unfold log_error. frame. apply keeps_emit, H. Qed.

Lemma keeps_range lo hi : keeps I p (range lo hi).
Proof. unfold range. frame. Qed.

Lemma keeps_unhexlify v : keeps I p (unhexlify v).
Proof. unfold unhexlify. frame. Qed.

Lemma keeps_lora_has_joined rad :
  (forall b, p (EHasJoined b) = true) -> keeps I p (lora_has_joined rad).
Proof. intros H. unfold lora_has_joined. frame. apply keeps_emit, H. Qed.

Lemma keeps_while_not_joined rad fuel :
  (forall b, p (EHasJoined b) = true) ->
  (forall ms, p (ESleep ms) = true) ->
  (forall f a, p (ELog Info f a) = true) ->
  keeps I p (while_not_joined rad fuel).
Proof.
  intros Hp Hs Hl. induction fuel as [|f IH]; simpl.
  - apply keeps_out_of_fuel.
  - apply keeps_bind; [apply keeps_lora_has_joined, Hp|intros j].
    destruct (negb j); [|apply keeps_ret].
    apply keeps_bind; [apply keeps_sleep, Hs|intros _].
    apply keeps_bind; [apply keeps_sleep, Hs|intros _].
    apply keeps_bind; [apply keeps_log_info, Hl|intros _].
    exact IH.
Qed.
End FrameMethods.

(** ** Running the primitives *)

Lemma delta_app w d s : delta w {| self := s; trace := (trace w ++ d)%list |} = d.
Proof. unfold delta. simpl. apply drop_app_length. Qed.

Lemma run_bind {A B} (m : M A) (k : A -> M B) w :
  (m ≫= k) w =
  match m w with
  | (Ret a, w') => k a w'
  | (Raise e, w') => (Raise e, w')
  | (OutOfFuel, w') => (OutOfFuel, w')
  end.
Proof. reflexivity. Qed.

Lemma emit_bind {B} e (k : unit -> M B) w :
  (emit e ≫= k) w = k tt {| self := self w; trace := (trace w ++ [e])%list |}.
Proof. reflexivity. Qed.

Lemma modify_bind {B} f (k : unit -> M B) w :
  (modify f ≫= k) w = k tt {| self := f (self w); trace := trace w |}.
Proof. reflexivity. Qed.

Lemma ret_bind {A B} (a : A) (k : A -> M B) w : (mret a ≫= k) w = k a w.
Proof. reflexivity. Qed.

(** * Credentials and configuration *)

(** C8: [start_lora_join] and [wait_for_lora_join] leave the settings object
    and the OTAA settings (application identifier, application key, optional
    device identifier, region) exactly as they found them, whatever the
    starting state, the radio and the outcome of the call. *)
Theorem join_leaves_settings_unchanged rad fuel attempts w :
  let cfg := fun s => (settings s, otaa_settings s) in
  cfg (self (start_lora_join w).2) = cfg (self w) /\
  cfg (self (wait_for_lora_join rad fuel attempts w).2) = cfg (self w).
Proof.
  intros cfg. split.
  - assert (K : keeps cfg (fun _ => true) start_lora_join)
      by (unfold start_lora_join, LoRa_new, lora_join, unhexlify; frame).
    destruct (start_lora_join w) as [r w'] eqn:E. apply (K _ _ _ E).
  - assert (K : keeps cfg (fun _ => true) (wait_for_lora_join rad fuel attempts)).
    { unfold wait_for_lora_join, lora_has_joined, range, log_info. frame.
      apply keeps_while_not_joined; reflexivity. }
    destruct (wait_for_lora_join rad fuel attempts w) as [r w'] eqn:E.
    apply (K _ _ _ E).
Qed.

Lemma start_lora_join_run w :
  start_lora_join w =
  let w1 := with_lora w [ECall m_start_lora_join; ELoRaNew LORAWAN EU868] in
  (v ← otaa_getitem "application_eui";
   app_eui ← unhexlify v;
   v ← otaa_getitem "application_key";
   app_key ← unhexlify v;
   d ← otaa_get "device_eui";
   match d with
   | PNone => lora_join OTAA [app_eui; app_key] 0
   | _ =>
       v ← otaa_getitem "device_eui";
       dev_eui ← unhexlify v;
       lora_join OTAA [dev_eui; app_eui; app_key] 0
   end) w1.
Proof.
  unfold start_lora_join, with_lora, LoRa_new.
  rewrite emit_bind, run_bind, emit_bind. cbn [mret M_ret ret].
  rewrite modify_bind. cbn [self trace]. rewrite <- app_assoc. reflexivity.
Qed.

Lemma otaa_getitem_run w d key :
  otaa_settings (self w) = Some d ->
  otaa_getitem key w =
  match d !! key with
  | Some v => (Ret v, w)
  | None => (Raise (KeyError key), w)
  end.
Proof. intros H. unfold otaa_getitem. rewrite H. reflexivity. Qed.

Lemma otaa_get_run w d key :
  otaa_settings (self w) = Some d ->
  otaa_get key w =
  match d !! key with
  | Some v => (Ret v, w)
  | None => (Ret PNone, w)
  end.
Proof. intros H. unfold otaa_get. rewrite H. reflexivity. Qed.

Lemma unhexlify_run v w :
  unhexlify v w =
  match v with
  | PStr s =>
      match unhexlify_str s with
      | Some b => (Ret b, w)
      | None => (Raise (ValueError "unhexlify"), w)
      end
  | _ => (Raise (TypeError "unhexlify"), w)
  end.
Proof.
  unfold unhexlify. rewrite run_bind.
  destruct v; try reflexivity. simpl. destruct (unhexlify_str s); reflexivity.
Qed.

Lemma lora_join_run w d act auth tmo :
  lora_join act auth tmo (with_lora w d) =
  (Ret tt, with_lora w (d ++ [EJoin act auth tmo])).
Proof.
  unfold lora_join, with_lora. rewrite run_bind. unfold getattr, emit.
  cbn [self trace lora set_lora]. rewrite <- app_assoc. reflexivity.
Qed.

(** The join request goes out with the decoded credentials. *)
Lemma start_lora_join_ok w d auth :
  otaa_settings (self w) = Some d ->
  auth_for d auth ->
  start_lora_join w =
  (Ret tt, with_lora w [ECall m_start_lora_join; ELoRaNew LORAWAN EU868;
                        EJoin OTAA auth 0]).
Proof.
  intros Hd (ab & kb & Ha & Hk & Hdev).
  assert (Hd1 : forall t, otaa_settings (self (with_lora w t)) = Some d) by (intros; exact Hd).
  rewrite start_lora_join_run. cbv zeta.
  unfold decode_key, device_eui_absent in *.
  rewrite run_bind, (otaa_getitem_run _ d) by apply Hd1.
  destruct (d !! "application_eui") as [[| | |a]|]; try discriminate.
  rewrite run_bind, unhexlify_run, Ha.
  rewrite run_bind, (otaa_getitem_run _ d) by apply Hd1.
  destruct (d !! "application_key") as [[| | |k]|]; try discriminate.
  rewrite run_bind, unhexlify_run, Hk.
  rewrite run_bind, (otaa_get_run _ d) by apply Hd1.
  destruct Hdev as [[Habs ->]|[Habs (db & Hdb & ->)]].
  - destruct (d !! "device_eui") as [[| | |dv]|]; try discriminate;
      apply lora_join_run.
  - destruct (d !! "device_eui") as [[| | |dv]|] eqn:Edev; try discriminate;
      rewrite run_bind, (otaa_getitem_run _ d), Edev by apply Hd1;
      rewrite run_bind, unhexlify_run; try discriminate.
    rewrite Hdb. apply lora_join_run.
Qed.

Ltac slj_step H d Hd1 :=
  cbv beta iota in H; rewrite run_bind in H;
  first [ rewrite (otaa_getitem_run _ d) in H by apply Hd1
        | rewrite (otaa_get_run _ d) in H by apply Hd1
        | rewrite unhexlify_run in H
        | rewrite lora_join_run in H ];
  cbv beta iota in H.

Ltac slj_raised H := right; injection H as <- <-; eauto.

(** Every run of [start_lora_join] either sends exactly that request or
    raises before any request is sent. *)
Lemma start_lora_join_inv w r w' :
  start_lora_join w = (r, w') ->
  (exists d auth,
     otaa_settings (self w) = Some d /\ auth_for d auth /\ r = Ret tt /\
     w' = with_lora w [ECall m_start_lora_join; ELoRaNew LORAWAN EU868;
                       EJoin OTAA auth 0]) \/
  (exists e, r = Raise e /\
     w' = with_lora w [ECall m_start_lora_join; ELoRaNew LORAWAN EU868]).
Proof.
  intros H.
  destruct (otaa_settings (self w)) as [d|] eqn:Hd.
  2:{ right. rewrite start_lora_join_run in H. cbv zeta in H.
      rewrite run_bind in H. unfold otaa_getitem in H at 1.
      cbn [self with_lora set_lora otaa_settings] in H. rewrite Hd in H.
      injection H as <- <-. eauto. }
  assert (Hd1 : forall t, otaa_settings (self (with_lora w t)) = Some d)
    by (intros; exact Hd).
  rewrite start_lora_join_run in H. cbv zeta in H.
  slj_step H d Hd1.
  destruct (d !! "application_eui") as [[| | |a]|] eqn:Ea;
    try slj_step H d Hd1; try (slj_raised H; fail).
  destruct (unhexlify_str a) as [ab|] eqn:Hab; [|slj_raised H].
  slj_step H d Hd1.
  destruct (d !! "application_key") as [[| | |k]|] eqn:Ek;
    try slj_step H d Hd1; try (slj_raised H; fail).
  destruct (unhexlify_str k) as [kb|] eqn:Hkb; [|slj_raised H].
  slj_step H d Hd1.
  assert (Ka : decode_key d "application_eui" = Some ab)
    by (unfold decode_key; rewrite Ea; exact Hab).
  assert (Kk : decode_key d "application_key" = Some kb)
    by (unfold decode_key; rewrite Ek; exact Hkb).
  destruct (d !! "device_eui") as [dv|] eqn:Edev.
  2:{ rewrite lora_join_run in H. injection H as <- <-. left.
      exists d, [ab; kb]. repeat split; auto. exists ab, kb.
      repeat split; auto. left. unfold device_eui_absent. rewrite Edev. auto. }
  destruct dv as [| | |dv].
  { rewrite lora_join_run in H. injection H as <- <-. left.
    exists d, [ab; kb]. repeat split; auto. exists ab, kb.
    repeat split; auto. left. unfold device_eui_absent. rewrite Edev. auto. }
  1,2: slj_step H d Hd1; rewrite Edev in H; slj_step H d Hd1; slj_raised H.
  slj_step H d Hd1. rewrite Edev in H. slj_step H d Hd1.
  destruct (unhexlify_str dv) as [db|] eqn:Hdb; [|slj_raised H].
  rewrite lora_join_run in H. injection H as <- <-. left.
  exists d, [db; ab; kb]. repeat split; auto. exists ab, kb.
  repeat split; auto. right. unfold device_eui_absent, decode_key.
  rewrite Edev. eauto.
Qed.

(** C3: with the device identifier absent from the settings (or None) the
    join request carries the 2-tuple (app_eui, app_key); with it present it
    carries the 3-tuple (dev_eui, app_eui, app_key).  Every identifier is
    hex-decoded first, "AA11" to the bytes 0xAA 0x11, and no run sends a
    request of the other shape. *)
Theorem start_lora_join_selects_auth w d ab kb :
  otaa_settings (self w) = Some d ->
  decode_key d "application_eui" = Some ab ->
  decode_key d "application_key" = Some kb ->
  (device_eui_absent d = true ->
   start_lora_join w =
   (Ret tt, with_lora w [ECall m_start_lora_join; ELoRaNew LORAWAN EU868;
                         EJoin OTAA [ab; kb] 0])) /\
  (forall db,
     device_eui_absent d = false -> decode_key d "device_eui" = Some db ->
     start_lora_join w =
     (Ret tt, with_lora w [ECall m_start_lora_join; ELoRaNew LORAWAN EU868;
                           EJoin OTAA [db; ab; kb] 0])) /\
  (forall act auth tmo,
     In (EJoin act auth tmo) (delta w (start_lora_join w).2) ->
     act = OTAA /\ tmo = 0 /\
     length auth = if device_eui_absent d then 2%nat else 3%nat) /\
  unhexlify_str "AA11" = Some [xaa; x11].
Proof.
  intros Hd Ha Hk. repeat split.
  - intros Habs. apply (start_lora_join_ok w d); [exact Hd|].
    exists ab, kb. auto.
  - intros db Habs Hdb. apply (start_lora_join_ok w d); [exact Hd|].
    exists ab, kb. repeat split; auto. right. eauto.
  - destruct (start_lora_join w) as [r w'] eqn:E.
    destruct (start_lora_join_inv _ _ _ E) as
      [(d' & auth' & Hd' & A & -> & ->)|(e & -> & ->)];
      cbn [snd] in H; unfold with_lora in H; rewrite delta_app in H;
      simpl in H; intuition congruence.
  - destruct (start_lora_join w) as [r w'] eqn:E.
    destruct (start_lora_join_inv _ _ _ E) as
      [(d' & auth' & Hd' & A & -> & ->)|(e & -> & ->)];
      cbn [snd] in H; unfold with_lora in H; rewrite delta_app in H;
      simpl in H; intuition congruence.
  - destruct (start_lora_join w) as [r w'] eqn:E.
    destruct (start_lora_join_inv _ _ _ E) as
      [(d' & auth' & Hd' & A & -> & ->)|(e & -> & ->)];
      cbn [snd] in H; unfold with_lora in H; rewrite delta_app in H;
      simpl in H; try (intuition congruence).
    assert (d' = d) by congruence. subst d'.
    destruct H as [H|[H|[H|[]]]]; try discriminate. injection H as _ <- _.
    destruct A as (ab' & kb' & _ & _ & [[-> ->]|[-> (db & _ & ->)]]);
      reflexivity.
Qed.

(** Scenario 3: the device identifier "AA11" goes out as 0xAA 0x11, first
    in the 3-tuple. *)
Lemma start_lora_join_selects_auth_witness :
  start_lora_join fresh_dev =
  (Ret tt, with_lora fresh_dev
     [ECall m_start_lora_join; ELoRaNew LORAWAN EU868;
      EJoin OTAA
        [[xaa; x11];
         [x70; xb3; xd5; x7e; xd0; x00; x12; x34];
         [x00; x01; x02; x03; x04; x05; x06; x07;
          x08; x09; x0a; x0b; x0c; x0d; x0e; x0f]] 0]).
Proof.
  apply (proj1 (proj2 (start_lora_join_selects_auth fresh_dev otaa_ttn_dev
    [x70; xb3; xd5; x7e; xd0; x00; x12; x34]
    [x00; x01; x02; x03; x04; x05; x06; x07;
     x08; x09; x0a; x0b; x0c; x0d; x0e; x0f]
    ltac:(vm_compute; reflexivity) ltac:(vm_compute; reflexivity)
    ltac:(vm_compute; reflexivity)))); vm_compute; reflexivity.
Defined.

(** * The session socket *)

(** C9: [create_lora_socket] always stops at its first statement after
    [self.lora_socket = None]: the module binds no name [socket], so
    evaluating [socket.socket] raises NameError before anything is asked of
    the radio, and [self.lora_socket] is left at None. *)
Theorem create_lora_socket_name_error w :
("socket" ∉ module_globals) /\
  create_lora_socket w =
  (Raise (NameError "socket"),
   {| self := set_lora_socket PNone (self w);
      trace := (trace w ++ [ECall m_create_lora_socket])%list |}) /\
  lora_socket (self (create_lora_socket w).2) = Some PNone /\
  count is_radio (delta w (create_lora_socket w).2) = 0%nat.
Proof.
  assert (E : create_lora_socket w =
    (Raise (NameError "socket"),
     {| self := set_lora_socket PNone (self w);
        trace := (trace w ++ [ECall m_create_lora_socket])%list |}))
    by reflexivity.
  split; [|split; [exact E|rewrite E; split]].
  - unfold module_globals. intros H.
    repeat (apply elem_of_cons in H as [H|H]; [discriminate|]).
    inversion H.
  - reflexivity.
  - cbn [snd]. rewrite delta_app. reflexivity.
Qed.

(** * Waiting for the join *)

Lemma count_app p t d : count p (t ++ d) = (count p t + count p d)%nat.
Proof. unfold count. rewrite List.filter_app, length_app. reflexivity. Qed.

Lemma polls_of_app t d : polls_of (t ++ d) = (polls_of t ++ polls_of d)%list.
Proof.
  induction t as [|e t IH]; [reflexivity|].
  destruct e; simpl; rewrite IH; reflexivity.
Qed.

Lemma polls_of_rounds k : polls_of (rounds k) = replicate k false.
Proof. induction k as [|k IH]; simpl; [|rewrite IH]; reflexivity. Qed.

Lemma count_poll_rounds k : count is_poll (rounds k) = k.
Proof.
  induction k as [|k IH]; [reflexivity|].
  change (rounds (S k)) with (not_yet ++ rounds k)%list.
  rewrite count_app, IH. reflexivity.
Qed.

Lemma polls_of_joined n :
  polls_of (replicate n (EHasJoined true)) = replicate n true.
Proof. induction n as [|n IH]; simpl; [|rewrite IH]; reflexivity. Qed.

Lemma count_poll_joined n : count is_poll (replicate n (EHasJoined true)) = n.
Proof.
  induction n as [|n IH]; [reflexivity|].
  unfold count in *. simpl. rewrite IH. reflexivity.
Qed.

Lemma polls_after_first_join_spec k r :
  polls_after_first_join (replicate k false ++ true :: r) = length r.
Proof. induction k as [|k IH]; simpl; auto. Qed.

(** One poll. *)
Lemma lora_has_joined_run rad w :
  lora_has_joined rad w =
  match lora (self w) with
  | Some _ =>
      let b := has_joined_reply rad (next_poll w) in
      (Ret b, {| self := self w; trace := (trace w ++ [EHasJoined b])%list |})
  | None => (Raise (AttributeError "lora"), w)
  end.
Proof.
  unfold lora_has_joined. rewrite run_bind. unfold getattr.
  destruct (lora (self w)); reflexivity.
Qed.

(** One iteration of the inner loop. *)
Lemma while_not_joined_step rad f w :
  while_not_joined rad (S f) w =
  match lora (self w) with
  | Some _ =>
      if has_joined_reply rad (next_poll w)
      then (Ret tt, {| self := self w;
                       trace := (trace w ++ [EHasJoined true])%list |})
      else while_not_joined rad f
             {| self := self w; trace := (trace w ++ not_yet)%list |}
  | None => (Raise (AttributeError "lora"), w)
  end.
Proof.
  cbn [while_not_joined]. rewrite run_bind, lora_has_joined_run.
  destruct (lora (self w)); [|reflexivity]. cbv zeta.
  destruct (has_joined_reply rad (next_poll w)); [reflexivity|].
  cbn [negb]. unfold not_yet.
  replace (trace w ++ [EHasJoined false; ESleep 2500; ESleep 100;
                        ELog Info "[LoRA] Not joined yet..." []])%list
    with ((((trace w ++ [EHasJoined false]) ++ [ESleep 2500]) ++ [ESleep 100])
            ++ [ELog Info "[LoRA] Not joined yet..." []])%list
    by (rewrite <- !app_assoc; reflexivity).
  reflexivity.
Qed.

(** The inner loop against a radio that answers "not joined" [k] times and
    then "joined": it needs [k + 1] polls. *)
Lemma while_not_joined_rounds rad k : forall fuel w l,
  lora (self w) = Some l ->
  (forall j, (j < k)%nat -> has_joined_reply rad (next_poll w + j) = false) ->
  has_joined_reply rad (next_poll w + k) = true ->
  (k < fuel)%nat ->
  while_not_joined rad fuel w =
  (Ret tt, {| self := self w;
              trace := (trace w ++ rounds k ++ [EHasJoined true])%list |}).
Proof.
  induction k as [|k IH]; intros fuel w l Hl Hno Hyes Hfuel;
    (destruct fuel as [|f]; [lia|]); rewrite while_not_joined_step, Hl.
  - rewrite Nat.add_0_r in Hyes. rewrite Hyes. reflexivity.
  - rewrite <- (Nat.add_0_r (next_poll w)), (Hno 0%nat) by lia.
    erewrite IH; cbn [self trace].
    + change (rounds (S k)) with (not_yet ++ rounds k)%list.
      rewrite <- !app_assoc. reflexivity.
    + exact Hl.
    + intros j Hj. unfold next_poll. cbn [trace]. rewrite count_app.
      change (count is_poll not_yet) with 1%nat.
      replace (count is_poll (trace w) + 1 + j)%nat
        with (next_poll w + S j)%nat by (unfold next_poll; lia).
      apply Hno. lia.
    + unfold next_poll. cbn [trace]. rewrite count_app.
      change (count is_poll not_yet) with 1%nat.
      replace (count is_poll (trace w) + 1 + k)%nat
        with (next_poll w + S k)%nat by (unfold next_poll; lia).
      exact Hyes.
    + lia.
Qed.

(** The inner loop against a radio that keeps answering "not joined": all
    the fuel is spent polling. *)
Lemma while_not_joined_forever rad fuel : forall w l,
  lora (self w) = Some l ->
  (forall j, (j < fuel)%nat -> has_joined_reply rad (next_poll w + j) = false) ->
  while_not_joined rad fuel w =
  (OutOfFuel, {| self := self w; trace := (trace w ++ rounds fuel)%list |}).
Proof.
  induction fuel as [|f IH]; intros w l Hl Hno.
  - simpl. rewrite app_nil_r. destruct w; reflexivity.
  - rewrite while_not_joined_step, Hl.
    rewrite <- (Nat.add_0_r (next_poll w)), (Hno 0%nat) by lia.
    erewrite IH; cbn [self trace].
    + change (rounds (S f)) with (not_yet ++ rounds f)%list.
      rewrite <- !app_assoc. reflexivity.
    + exact Hl.
    + intros j Hj. unfold next_poll. cbn [trace]. rewrite count_app.
      change (count is_poll not_yet) with 1%nat.
      replace (count is_poll (trace w) + 1 + j)%nat
        with (next_poll w + S j)%nat by (unfold next_poll; lia).
      apply Hno. lia.
Qed.

Lemma range_bind {B} lo hi (k : list Z -> M B) w :
  (range lo hi ≫= k) w = k (range_list lo hi) w.
Proof. reflexivity. Qed.

Lemma sleep_bind {B} ms (k : unit -> M B) w :
  (sleep ms ≫= k) w =
  k tt {| self := self w; trace := (trace w ++ [ESleep ms])%list |}.
Proof. reflexivity. Qed.

(** The method is its outer loop followed by one more poll, whose answer is
    stored, logged and returned. *)
Lemma wait_for_lora_join_run rad fuel a w :
  wait_for_lora_join rad fuel a w =
  match for_each (range_list 0 a) (fun _ => while_not_joined rad fuel)
          (waiting a w) with
  | (Ret _, w2) =>
      match lora (self w2) with
      | Some _ =>
          let b := has_joined_reply rad (next_poll w2) in
          (Ret (PBool b), waited a b w2)
      | None => (Raise (AttributeError "lora"), w2)
      end
  | (Raise e, w2) => (Raise e, w2)
  | (OutOfFuel, w2) => (OutOfFuel, w2)
  end.
Proof.
  unfold wait_for_lora_join. rewrite emit_bind, modify_bind, range_bind.
  cbn [self trace]. rewrite run_bind. fold (waiting a w).
  destruct (for_each _ _ (waiting a w)) as [[[]|e|] w2]; try reflexivity.
  rewrite run_bind, lora_has_joined_run.
  destruct (lora (self w2)); [|reflexivity]. cbv zeta.
  unfold waited, joined_log.
  destruct (has_joined_reply rad (next_poll w2)); cbn;
    match goal with
    | |- _ = (_, {| self := _; trace := (?t ++ [?x; ?y])%list |}) =>
        replace (t ++ [x; y])%list with ((t ++ [x]) ++ [y])%list
          by (rewrite <- app_assoc; reflexivity)
    end; reflexivity.
Qed.

Lemma range_list_succ a :
  1 <= a -> exists n, Z.to_nat a = S n /\ range_list 0 a = 0 :: range_list 1 a.
Proof.
  intros H. exists (Z.to_nat (a - 1)). split; [lia|].
  unfold range_list. replace (Z.to_nat (a - 0)) with (S (Z.to_nat (a - 1))) by lia.
  cbn [seq fmap list_fmap]. f_equal. rewrite <- seq_shift, <- list_fmap_compose.
  apply list_fmap_ext. intros _ i _. simpl. lia.
Qed.

Lemma range_list_length lo hi : length (range_list lo hi) = Z.to_nat (hi - lo).
Proof. unfold range_list. rewrite length_fmap, length_seq. reflexivity. Qed.

(** C1: the claim promises a return of false after exactly [attempts]
    iterations when the radio never reports joined.  The method does not
    return at all: with any positive budget the first outer iteration polls
    for ever, whatever the fuel, so the budget bounds nothing. *)
Theorem wait_for_lora_join_never_returns rad fuel attempts w l :
  lora (self w) = Some l ->
  1 <= attempts ->
  (forall i, has_joined_reply rad i = false) ->
  wait_for_lora_join rad fuel attempts w =
  (OutOfFuel, {| self := set_lora_joined PNone (self w);
               trace := (trace w ++ ECall (m_wait_for_lora_join attempts)
                                 :: rounds fuel)%list |}).
Proof.
  intros Hl Ha Hno. rewrite wait_for_lora_join_run.
  destruct (range_list_succ attempts Ha) as (n & _ & ->).
  cbn [for_each]. rewrite run_bind.
  rewrite (while_not_joined_forever rad fuel (waiting attempts w) l)
    by (auto; intros; apply Hno).
  unfold waiting. cbn [self trace]. rewrite <- app_assoc. reflexivity.
Qed.

(** Scenario 1 (attempts = 3, the radio never joins) on the code: no return
    after 3 iterations, only polling. *)
Lemma wait_for_lora_join_never_returns_witness :
  1 <= 3 /\
  (wait_for_lora_join never_joined 25 3
     (with_lora fresh [ECall m_start_lora_join])).1 = OutOfFuel.
Proof.
  split; [lia|].
  rewrite (wait_for_lora_join_never_returns never_joined 25 3
             (with_lora fresh [ECall m_start_lora_join]) the_lora);
    [reflexivity|reflexivity|lia|reflexivity].
Defined.

Lemma next_poll_waiting a w : next_poll (waiting a w) = next_poll w.
Proof.
  unfold next_poll, waiting. cbn [trace]. rewrite count_app.
  change (count is_poll [ECall (m_wait_for_lora_join a)]) with 0%nat. lia.
Qed.

(** Once the radio reports joined, every further outer iteration is a single
    poll. *)
Lemma for_each_already_joined {A} rad fuel (xs : list A) : forall w l,
  lora (self w) = Some l ->
  (1 <= fuel)%nat ->
  (forall j, (next_poll w <= j)%nat -> has_joined_reply rad j = true) ->
  for_each xs (fun _ => while_not_joined rad fuel) w =
  (Ret tt, {| self := self w;
              trace := (trace w ++ replicate (length xs) (EHasJoined true))%list |}).
Proof.
  induction xs as [|x xs IH]; intros w l Hl Hfuel Hyes.
  - simpl. rewrite app_nil_r. destruct w; reflexivity.
  - cbn [for_each]. rewrite run_bind.
    rewrite (while_not_joined_rounds rad 0 fuel w l); auto; try lia.
    2:{ apply Hyes. lia. }
    cbn [rounds app]. erewrite IH; cbn [self trace]; eauto.
    + rewrite <- app_assoc. reflexivity.
    + intros j Hj. apply Hyes. unfold next_poll in *. cbn [trace] in Hj.
      rewrite count_app in Hj. lia.
Qed.

(** The whole call against a radio that first reports joined at its (k+1)-th
    poll and keeps reporting it. *)
Lemma wait_for_lora_join_polls_exact rad fuel attempts w l k :
  lora (self w) = Some l ->
  1 <= attempts ->
  (forall j, (j < k)%nat -> has_joined_reply rad (next_poll w + j) = false) ->
  (forall j, (k <= j)%nat -> has_joined_reply rad (next_poll w + j) = true) ->
  (k < fuel)%nat ->
  exists w',
    wait_for_lora_join rad fuel attempts w = (Ret (PBool true), w') /\
    lora_joined (self w') = Some (PBool true) /\
    polls_of (delta w w') =
      (replicate k false ++ true :: replicate (Z.to_nat attempts) true)%list /\
    polls_after_first_join (polls_of (delta w w')) = Z.to_nat attempts.
Proof.
  intros Hl Ha Hno Hyes Hfuel.
  rewrite wait_for_lora_join_run.
  destruct (range_list_succ attempts Ha) as (n & Hn & ->).
  cbn [for_each]. rewrite run_bind.
  rewrite (while_not_joined_rounds rad k fuel (waiting attempts w) l); auto.
  2:{ intros j Hj. rewrite next_poll_waiting. auto. }
  2:{ rewrite next_poll_waiting. auto. }
  set (w1 := {| self := self (waiting attempts w);
                trace := (trace (waiting attempts w) ++ rounds k
                            ++ [EHasJoined true])%list |}).
  assert (P1 : next_poll w1 = (next_poll w + k + 1)%nat).
  { unfold next_poll, w1, waiting. cbn [trace].
    rewrite !count_app, count_poll_rounds.
    change (count is_poll [ECall (m_wait_for_lora_join attempts)]) with 0%nat.
    change (count is_poll [EHasJoined true]) with 1%nat. lia. }
  rewrite (for_each_already_joined rad fuel (range_list 1 attempts) w1 l);
    auto; try lia.
  2:{ intros j Hj. replace j with (next_poll w + (j - next_poll w))%nat by lia.
      apply Hyes. lia. }
  rewrite range_list_length. replace (Z.to_nat (attempts - 1)) with n by lia.
  cbn [self trace lora w1 waiting set_lora_joined]. rewrite Hl. cbv zeta.
  set (w2 := {| self := _; trace := _ |}).
  assert (P2 : next_poll w2 = (next_poll w + (k + 1 + n))%nat).
  { unfold next_poll, w2. cbn [trace].
    rewrite !count_app, count_poll_rounds, count_poll_joined.
    change (count is_poll [ECall (m_wait_for_lora_join attempts)]) with 0%nat.
    change (count is_poll [EHasJoined true]) with 1%nat. lia. }
  rewrite P2, Hyes by lia.
  eexists. split; [reflexivity|]. split; [reflexivity|].
  assert (D : polls_of (delta w (waited attempts true w2)) =
              (replicate k false ++ true :: replicate (Z.to_nat attempts) true)%list).
  { unfold waited, w2. cbn [trace self].
    rewrite <- !app_assoc.
    rewrite (delta_app w _ (set_lora_joined (PBool true) _)).
    cbn [app polls_of]. rewrite polls_of_app, polls_of_rounds.
    cbn [polls_of]. rewrite polls_of_app, polls_of_joined.
    cbn [polls_of joined_log app]. rewrite Hn.
    f_equal. f_equal. clear. induction n as [|n IH]; [reflexivity|].
    cbn [replicate app]. rewrite IH. reflexivity. }
  rewrite D. split; [reflexivity|].
  rewrite polls_after_first_join_spec, length_replicate. reflexivity.
Qed.

(** C4, as the code has it: when the radio first reports joined on polling
    iteration k+1 <= attempts and keeps reporting it, [wait_for_lora_join]
    returns True and leaves the joined flag True, but it does not stop
    polling at that observation: at least one more [has_joined()] follows,
    the one after the loop whose answer is stored and returned. *)
Theorem wait_for_lora_join_polls_on rad fuel attempts w l k :
  lora (self w) = Some l ->
  Z.of_nat (S k) <= attempts ->
  (forall j, (j < k)%nat -> has_joined_reply rad (next_poll w + j) = false) ->
  (forall j, (k <= j)%nat -> has_joined_reply rad (next_poll w + j) = true) ->
  (k < fuel)%nat ->
  exists w',
    wait_for_lora_join rad fuel attempts w = (Ret (PBool true), w') /\
    lora_joined (self w') = Some (PBool true) /\
    (1 <= polls_after_first_join (polls_of (delta w w')))%nat.
Proof.
  intros Hl Ha Hno Hyes Hfuel.
  destruct (wait_for_lora_join_polls_exact rad fuel attempts w l k)
    as (w' & E & J & _ & P); auto; try lia.
  exists w'. rewrite P. repeat split; auto. lia.
Qed.

(** Budget 3, joined from the second poll on, called right after the join
    request. *)
Lemma wait_for_lora_join_polls_on_witness :
  exists w',
    wait_for_lora_join joins_at_second_poll 10 3
      (with_lora fresh [ECall m_start_lora_join]) = (Ret (PBool true), w') /\
    lora_joined (self w') = Some (PBool true) /\
    (1 <= polls_after_first_join
            (polls_of (delta (with_lora fresh [ECall m_start_lora_join]) w')))%nat.
Proof.
  apply (wait_for_lora_join_polls_on joins_at_second_poll 10 3
           (with_lora fresh [ECall m_start_lora_join]) the_lora 1).
  - reflexivity.
  - lia.
  - intros j Hj. replace j with 0%nat by lia. reflexivity.
  - intros j Hj. destruct j as [|j]; [lia|reflexivity].
  - lia.
Defined.

(** C4 as stated fails: with a budget of 3 and a radio that first reports
    joined at the second poll (2 <= 3), the method returns True only after
    three further polls. *)
Lemma wait_for_lora_join_stops_polling_counterexample :
  (wait_for_lora_join joins_at_second_poll 10 3
     (with_lora fresh [ECall m_start_lora_join])).1 = Ret (PBool true) /\
  polls_of
    (delta (with_lora fresh [ECall m_start_lora_join])
       (wait_for_lora_join joins_at_second_poll 10 3
          (with_lora fresh [ECall m_start_lora_join])).2)
  = [false; true; true; true; true] /\
  polls_after_first_join
    (polls_of
       (delta (with_lora fresh [ECall m_start_lora_join])
          (wait_for_lora_join joins_at_second_poll 10 3
             (with_lora fresh [ECall m_start_lora_join])).2)) <> 0%nat.
Proof. vm_compute. repeat split; discriminate. Qed.

(** A poll that ends the inner loop answered "joined". *)
Lemma while_not_joined_ret rad fuel : forall w w',
  while_not_joined rad fuel w = (Ret tt, w') ->
  exists i, (i < next_poll w')%nat /\ has_joined_reply rad i = true.
Proof.
  induction fuel as [|f IH]; intros w w' H; [discriminate|].
  rewrite while_not_joined_step in H.
  destruct (lora (self w)); [|discriminate].
  destruct (has_joined_reply rad (next_poll w)) eqn:E.
  - injection H as <-. exists (next_poll w). split; [|exact E].
    unfold next_poll. cbn [trace]. rewrite count_app.
    change (count is_poll [EHasJoined true]) with 1%nat. lia.
  - eapply IH, H.
Qed.

(** The trace only grows, so the poll index never goes back. *)
Lemma keeps_next_poll {A} (m : M A) w r w' :
  keeps (fun _ => tt) (fun _ => true) m -> m w = (r, w') ->
  (next_poll w <= next_poll w')%nat.
Proof.
  intros K H. destruct (K _ _ _ H) as [_ (d & T & _)].
  unfold next_poll. rewrite T, count_app. lia.
Qed.

Lemma for_each_ret {A} rad fuel (x : A) xs w w' :
  for_each (x :: xs) (fun _ => while_not_joined rad fuel) w = (Ret tt, w') ->
  exists i, (i < next_poll w')%nat /\ has_joined_reply rad i = true.
Proof.
  cbn [for_each]. rewrite run_bind.
  destruct (while_not_joined rad fuel w) as [[[]|e|] w1] eqn:E;
    [|discriminate..].
  intros H. destruct (while_not_joined_ret _ _ _ _ E) as (i & Hi & Ht).
  exists i. split; [|exact Ht].
  assert (next_poll w1 <= next_poll w')%nat; [|lia].
  eapply keeps_next_poll; [|exact H].
  apply keeps_for_each. intros _. apply keeps_while_not_joined; reflexivity.
Qed.

(** C10, as the code has it: with a positive budget and a radio that keeps
    reporting joined once it has, a call that returns returns True.  (The
    value returned is the answer of one more poll made after the loop; a
    radio that loses the join in between makes it False.) *)
Theorem wait_for_lora_join_returns_true rad fuel attempts w v :
  1 <= attempts ->
  persistent rad ->
  (wait_for_lora_join rad fuel attempts w).1 = Ret v ->
  v = PBool true.
Proof.
  intros Ha Hp. rewrite wait_for_lora_join_run.
  destruct (range_list_succ attempts Ha) as (n & _ & ->).
  destruct (for_each _ _ (waiting attempts w)) as [[[]|e|] w2] eqn:E;
    [|discriminate..].
  destruct (for_each_ret _ _ _ _ _ _ E) as (i & Hi & Ht).
  destruct (lora (self w2)); [|discriminate].
  cbv zeta. cbn [fst]. intros [= <-].
  rewrite (Hp i (next_poll w2)); auto. lia.
Qed.

Lemma wait_for_lora_join_returns_true_witness :
  1 <= 2 /\ persistent always_joined /\
  (wait_for_lora_join always_joined 5 2
     (with_lora fresh [ECall m_start_lora_join])).1 = Ret (PBool true).
Proof.
  assert (P : persistent always_joined) by (intros i j _ _; reflexivity).
  assert (R : exists v,
    (wait_for_lora_join always_joined 5 2
       (with_lora fresh [ECall m_start_lora_join])).1 = Ret v)
    by (eexists; vm_compute; reflexivity).
  split; [lia|]. split; [exact P|].
  destruct R as [v R]. rewrite R. f_equal.
  exact (wait_for_lora_join_returns_true always_joined 5 2 _ v
           ltac:(lia) P R).
Defined.

(** C10 as stated fails: budget 1, a radio that reports joined at the first
    poll and not joined at the second; the call terminates and returns
    False. *)
Lemma wait_for_lora_join_returns_true_counterexample :
  1 <= 1 /\
  (wait_for_lora_join joined_then_lost 5 1
     (with_lora fresh [ECall m_start_lora_join])).1 = Ret (PBool false).
Proof. split; [lia|]. vm_compute. reflexivity. Qed.

(** * Sending and receiving *)

(** Runs the primitives of a loop-free computation. *)
Ltac run_prims :=
  unfold mbind, M_bind, bind, mret, M_ret, ret, get_trace, emit, modify,
    sleep, log_info, log_error, range, lookup_name;
  simpl.

Lemma delta_of_app w w' d : trace w' = (trace w ++ d)%list -> delta w w' = d.
Proof. intros H. unfold delta. rewrite H. apply drop_app_length. Qed.

Lemma create_lora_socket_run w :
  create_lora_socket w =
  (Raise (NameError "socket"),
   {| self := set_lora_socket PNone (self w);
      trace := (trace w ++ [ECall m_create_lora_socket])%list |}).
Proof. reflexivity. Qed.

Lemma lora_send_run rad payload w :
  lora_send rad payload w =
  match socket (self w) with
  | Some _ =>
      let n := send_reply rad (count is_send (trace w)) payload in
      (Ret n, {| self := self w;
                 trace := (trace w ++ [ECall (m_lora_send payload);
                                       ESend payload n;
                                       ESleep 100; ESleep 100])%list |})
  | None =>
      (Raise (AttributeError "socket"),
       {| self := self w;
          trace := (trace w ++ [ECall (m_lora_send payload)])%list |})
  end.
Proof.
  unfold lora_send, socket_send. rewrite emit_bind, !run_bind.
  unfold getattr. cbn [self trace].
  destruct (socket (self w)); [|reflexivity].
  run_prims. rewrite count_app. change (count is_send [ECall _]) with 0%nat.
  rewrite Nat.add_0_r, <- !app_assoc. reflexivity.
Qed.

Lemma lora_receive_run rad w :
  lora_receive rad w =
  match socket (self w) with
  | Some _ =>
      let rp := recvfrom_reply rad (count is_recv (trace w)) 256 in
      (Ret rp,
       {| self := self w;
          trace := (trace w ++
                    ECall m_lora_receive :: ERecvfrom 256 rp.1 rp.2 ::
                    (if bytes_truthy rp.1
                     then [ELog Info "[LoRa] Received: {}, on port: {}"
                             [LBytes rp.1; LInt rp.2]]
                     else []) ++ [ESleep 6000])%list |})
  | None =>
      (Raise (AttributeError "socket"),
       {| self := self w; trace := (trace w ++ [ECall m_lora_receive])%list |})
  end.
Proof.
  unfold lora_receive, socket_recvfrom. rewrite emit_bind, !run_bind.
  unfold getattr. cbn [self trace].
  destruct (socket (self w)); [|reflexivity].
  run_prims. rewrite count_app. change (count is_recv [ECall _]) with 0%nat.
  rewrite Nat.add_0_r.
  destruct (recvfrom_reply rad (count is_recv (trace w)) 256) as [rx port].
  destruct rx; simpl; rewrite <- !app_assoc; reflexivity.
Qed.

(** C6: with the socket in place, [lora_receive] hands back whatever the
    radio returned, an empty payload included, and [lora_send] hands back
    the count the radio accepted, partial or zero included; a radio that
    accepts no more than it is given accepts 0 of the empty payload.  None
    of these raises. *)
Theorem ready_transfer_is_not_an_error rad w payload :
  Ready (self w) ->
  (exists w', lora_send rad payload w =
              (Ret (send_reply rad (count is_send (trace w)) payload), w')) /\
  ((forall n p, 0 <= send_reply rad n p <= Z.of_nat (length p)) ->
   exists w', lora_send rad [] w = (Ret 0, w')) /\
  (exists w', lora_receive rad w =
              (Ret (recvfrom_reply rad (count is_recv (trace w)) 256), w')) /\
  (forall port,
     recvfrom_reply rad (count is_recv (trace w)) 256 = ([], port) ->
     exists w', lora_receive rad w = (Ret ([], port), w')).
Proof.
  intros [_ Hs]. destruct (socket (self w)) as [s|] eqn:E; [clear Hs|congruence].
  repeat split.
  - rewrite lora_send_run, E. eauto.
  - intros Hrad. rewrite lora_send_run, E. cbv zeta.
    specialize (Hrad (count is_send (trace w)) []). simpl in Hrad.
    replace (send_reply rad (count is_send (trace w)) []) with 0 by lia. eauto.
  - rewrite lora_receive_run, E. eauto.
  - intros port Hrx. rewrite lora_receive_run, E. cbv zeta. rewrite Hrx. eauto.
Qed.

(** Scenario 4: sending the empty payload gives 0; nothing to read gives an
    empty payload. *)
Lemma ready_transfer_is_not_an_error_witness :
  Ready (self ready_world) /\
  (exists w', lora_send always_joined [] ready_world = (Ret 0, w')) /\
  (exists w', lora_receive always_joined ready_world = (Ret ([], 0), w')).
Proof.
  assert (R : Ready (self ready_world)) by (split; [reflexivity|discriminate]).
  destruct (ready_transfer_is_not_an_error always_joined ready_world [] R)
    as (_ & S & _ & V).
  split; [exact R|]. split.
  - apply S. intros n p. simpl. lia.
  - apply (V 0). reflexivity.
Defined.

(** C7: the delay slept after a send is the same two 0.1 s sleeps for any
    payload, radio and state, and the delay slept after a receive is the
    same 6 s sleep whatever was received. *)
Theorem signaling_delay_is_constant rad1 rad2 w1 w2 p1 p2 :
  socket (self w1) <> None ->
  socket (self w2) <> None ->
  sleeps_of (delta w1 (lora_send rad1 p1 w1).2) =
    sleeps_of (delta w2 (lora_send rad2 p2 w2).2) /\
  sleeps_of (delta w1 (lora_receive rad1 w1).2) =
    sleeps_of (delta w2 (lora_receive rad2 w2).2) /\
  sleeps_of (delta w1 (lora_send rad1 p1 w1).2) = [100; 100] /\
  sleeps_of (delta w1 (lora_receive rad1 w1).2) = [6000].
Proof.
  intros H1 H2.
  assert (S : forall rad w p, socket (self w) <> None ->
            sleeps_of (delta w (lora_send rad p w).2) = [100; 100]).
  { intros rad w p H. rewrite lora_send_run.
    destruct (socket (self w)); [|congruence]. cbv zeta. cbn [snd].
    rewrite delta_app. reflexivity. }
  assert (R : forall rad w, socket (self w) <> None ->
            sleeps_of (delta w (lora_receive rad w).2) = [6000]).
  { intros rad w H. rewrite lora_receive_run.
    destruct (socket (self w)); [|congruence]. cbv zeta. cbn [snd].
    rewrite delta_app.
    destruct (bytes_truthy _); reflexivity. }
  rewrite !S, !R by assumption. auto.
Qed.

Lemma signaling_delay_is_constant_witness :
  sleeps_of (delta ready_world (lora_send always_joined [] ready_world).2) =
    sleeps_of (delta ready_world
                 (lora_send chatty [x01; x02; x03] ready_world).2) /\
  sleeps_of (delta ready_world (lora_receive always_joined ready_world).2) =
    sleeps_of (delta ready_world (lora_receive chatty ready_world).2) /\
  sleeps_of (delta ready_world (lora_send always_joined [] ready_world).2) =
    [100; 100] /\
  sleeps_of (delta ready_world (lora_receive always_joined ready_world).2) =
    [6000].
Proof.
  apply (signaling_delay_is_constant always_joined chatty ready_world
           ready_world [] [x01; x02; x03]); discriminate.
Defined.

(** * The lifecycle *)

Lemma while_not_joined_no_raise rad fuel : forall w l r w',
  lora (self w) = Some l ->
  while_not_joined rad fuel w = (r, w') ->
  r = Ret tt \/ r = OutOfFuel.
Proof.
  induction fuel as [|f IH]; intros w l r w' Hl H.
  - injection H as <- _. auto.
  - rewrite while_not_joined_step, Hl in H.
    destruct (has_joined_reply rad (next_poll w)).
    + injection H as <- _. auto.
    + eapply IH, H. exact Hl.
Qed.

(** The outer loop with the radio object in place: it returns or is still
    polling, it touches no attribute, and it adds polls, sleeps and info
    lines only. *)
Lemma for_each_while_inv {A} rad fuel (xs : list A) : forall w l r w',
  lora (self w) = Some l ->
  for_each xs (fun _ => while_not_joined rad fuel) w = (r, w') ->
  self w' = self w /\ (r = Ret tt \/ r = OutOfFuel) /\
  exists d, trace w' = (trace w ++ d)%list /\ forallb is_waiting_event d = true.
Proof.
  intros w l r w' Hl H. split; [|split].
  - assert (K : keeps (fun s => s) (fun _ => true)
                  (for_each xs (fun _ => while_not_joined rad fuel))).
    { apply keeps_for_each. intros _. apply keeps_while_not_joined; reflexivity. }
    apply (K _ _ _ H).
  - revert w Hl H. induction xs as [|x xs IH]; intros w Hl H.
    + injection H as <- _. auto.
    + cbn [for_each] in H. rewrite run_bind in H.
      destruct (while_not_joined rad fuel w) as [r1 w1] eqn:E.
      assert (K : keeps (fun s => s) (fun _ => true) (while_not_joined rad fuel))
        by (apply keeps_while_not_joined; reflexivity).
      destruct (K _ _ _ E) as [S _]. cbv beta in S.
      destruct (while_not_joined_no_raise _ _ _ _ _ _ Hl E) as [-> | ->].
      * eapply IH, H. rewrite S. exact Hl.
      * injection H as <- _. auto.
  - assert (K : keeps (fun s => s) is_waiting_event
                  (for_each xs (fun _ => while_not_joined rad fuel))).
    { apply keeps_for_each. intros _. apply keeps_while_not_joined; reflexivity. }
    apply (K _ _ _ H).
Qed.

(** [wait_for_lora_join] with the radio object in place. *)
Lemma wait_for_lora_join_inv rad fuel a w l r w' :
  lora (self w) = Some l ->
  wait_for_lora_join rad fuel a w = (r, w') ->
  sockets (self w') = sockets (self w) /\
  (exists d, trace w' = (trace w ++ ECall (m_wait_for_lora_join a) :: d)%list /\
             forallb is_waiting_event d = true) /\
  ((r = OutOfFuel /\ lora_joined (self w') = Some PNone) \/
   (exists b, r = Ret (PBool b) /\ lora_joined (self w') = Some (PBool b))).
Proof.
  intros Hl H. rewrite wait_for_lora_join_run in H.
  destruct (for_each _ _ (waiting a w)) as [r1 w2] eqn:E.
  assert (Hl' : lora (self (waiting a w)) = Some l) by exact Hl.
  destruct (for_each_while_inv _ _ _ _ l _ _ Hl' E) as (S & R & d & T & F).
  destruct R as [-> | ->].
  - rewrite S in H. cbn [self waiting lora set_lora_joined] in H.
    rewrite Hl in H. cbv zeta in H. injection H as <- <-.
    unfold waited. cbn [self trace]. rewrite S, T.
    split; [reflexivity|]. split; [|right; eauto].
    exists (d ++ [EHasJoined (has_joined_reply rad (next_poll w2));
                  joined_log a (has_joined_reply rad (next_poll w2))])%list.
    split.
    + unfold waiting. cbn [trace]. rewrite <- !app_assoc. reflexivity.
    + rewrite forallb_app, F. unfold joined_log.
      destruct (has_joined_reply rad (next_poll w2)); reflexivity.
  - injection H as <- <-. rewrite S, T.
    split; [reflexivity|]. split; [|left; auto].
    exists d. split; [|exact F].
    unfold waiting. cbn [trace]. rewrite <- !app_assoc. reflexivity.
Qed.

Lemma waiting_events_no_call d m :
  forallb is_waiting_event d = true -> ~ In (ECall m) d.
Proof.
  intros F H. rewrite forallb_forall in F. apply F in H. discriminate.
Qed.

Lemma waiting_events_no_join d :
  forallb is_waiting_event d = true -> count is_join d = 0%nat.
Proof.
  induction d as [|e d IH]; [reflexivity|]. simpl.
  intros [He Hd]%andb_prop. unfold count in *. simpl.
  destruct e; try discriminate; simpl; auto.
Qed.

Lemma log_error_run fmt args w :
  log_error fmt args w =
  (Ret tt, {| self := self w; trace := (trace w ++ [ELog Error fmt args])%list |}).
Proof. reflexivity. Qed.

(** The three ways a call of [start] can go once the join request is out,
    and the one way it goes when the request cannot be made. *)
Lemma start_inv rad fuel w r w' :
  start rad fuel w = (r, w') ->
  (exists e, r = Raise e /\
     delta w w' = [ECall m_start; ECall m_start_lora_join;
                   ELoRaNew LORAWAN EU868]) \/
  (exists auth d tail,
     delta w w' =
       ([ECall m_start; ECall m_start_lora_join; ELoRaNew LORAWAN EU868;
         EJoin OTAA auth 0; ECall (m_wait_for_lora_join 42)] ++ d ++ tail)%list /\
     forallb is_waiting_event d = true /\
     ((r = OutOfFuel /\ lora_joined (self w') = Some PNone /\ tail = []) \/
      (r = Raise (NameError "socket") /\
       lora_joined (self w') = Some (PBool true) /\
       tail = [ESleep 2500; ECall m_create_lora_socket]) \/
      (r = Ret tt /\
       lora_joined (self w') = Some (PBool false) /\
       tail = [ESleep 2500; ELog Error "[LoRa] Could not join network" []] /\
       lora_socket (self w') = lora_socket (self w) /\
       socket (self w') = socket (self w)))).
Proof.
  unfold start. rewrite emit_bind, run_bind.
  set (w0 := {| self := self w; trace := (trace w ++ [ECall m_start])%list |}).
  destruct (start_lora_join w0) as [r0 w1] eqn:E.
  destruct (start_lora_join_inv _ _ _ E)
    as [(d0 & auth & _ & _ & -> & ->)|(e & -> & ->)].
  2:{ intros [= <- <-]. left. exists e. split; [reflexivity|].
      apply delta_of_app. unfold with_lora, w0. cbn [trace].
      rewrite <- app_assoc. reflexivity. }
  rewrite run_bind.
  set (w1 := with_lora w0 _).
  destruct (wait_for_lora_join rad fuel 42 w1) as [r2 w2] eqn:W.
  assert (Hl : lora (self w1) = Some the_lora) by reflexivity.
  destruct (wait_for_lora_join_inv _ _ _ _ _ _ _ Hl W)
    as (S & (d & T & F) & [[-> J]|(b & -> & J)]).
  - intros [= <- <-]. right. exists auth, d, []. split; [|split; [exact F|auto]].
    apply delta_of_app. rewrite T. unfold w1, with_lora, w0. cbn [trace].
    rewrite app_nil_r, <- !app_assoc. reflexivity.
  - rewrite sleep_bind, run_bind. unfold getattr at 1. cbn [self].
    rewrite J. cbn [truthy]. unfold sockets in S. injection S as _ S1 S2.
    destruct b.
    + rewrite run_bind, create_lora_socket_run. intros [= <- <-].
      right. exists auth, d, [ESleep 2500; ECall m_create_lora_socket].
      split; [|split; [exact F|]].
      * apply delta_of_app. cbn [trace]. rewrite T. unfold w1, with_lora, w0.
        cbn [trace]. rewrite <- !app_assoc. reflexivity.
      * right. left. cbn [self lora_joined set_lora_socket]. auto.
    + rewrite log_error_run. intros [= <- <-].
      right. exists auth, d,
        [ESleep 2500; ELog Error "[LoRa] Could not join network" []].
      split; [|split; [exact F|]].
      * apply delta_of_app. cbn [trace]. rewrite T. unfold w1, with_lora, w0.
        cbn [trace]. rewrite <- !app_assoc. reflexivity.
      * right. right. cbn [self]. rewrite S1, S2. auto.
Qed.

(** C2: the last clause of the claim fails on the code.  [start] does send
    the join request first and then waits with the budget 42, but against a
    radio that never reports joined the wait has no end: whatever the fuel,
    the run consists of the join request, the call of
    [wait_for_lora_join(42)] and one "not joined" round after the other,
    all inside the first attempt.  The budget is never used up, the failure
    is never reported and the call never returns. *)
Theorem start_never_reports_failure rad fuel w d auth :
  otaa_settings (self w) = Some d ->
  auth_for d auth ->
  (forall i, has_joined_reply rad i = false) ->
  start rad fuel w =
  (OutOfFuel,
   {| self := set_lora_joined PNone (set_lora the_lora (self w));
      trace := (trace w ++
                [ECall m_start; ECall m_start_lora_join;
                 ELoRaNew LORAWAN EU868; EJoin OTAA auth 0;
                 ECall (m_wait_for_lora_join 42)] ++ rounds fuel)%list |}).
Proof.
  intros Hd Ha Hno. unfold start. rewrite emit_bind, run_bind.
  set (w0 := {| self := self w; trace := (trace w ++ [ECall m_start])%list |}).
  rewrite (start_lora_join_ok w0 d auth Hd Ha). rewrite run_bind.
  set (w1 := with_lora w0 _).
  rewrite wait_for_lora_join_run.
  destruct (range_list_succ 42) as (n & _ & ->); [lia|].
  cbn [for_each]. rewrite run_bind.
  rewrite (while_not_joined_forever rad fuel (waiting 42 w1) the_lora)
    by (auto; intros; apply Hno).
  unfold waiting, w1, with_lora, w0. cbn [trace self].
  rewrite <- !app_assoc. reflexivity.
Qed.

(** Good credentials, no gateway in range: after 7 rounds (18.2 s) the
    manager is where it was after the first, polling. *)
Lemma start_never_reports_failure_witness :
  (start never_joined 7 fresh).1 = OutOfFuel /\
  polls_of (trace (start never_joined 7 fresh).2) = replicate 7 false /\
  ~ In (ELog Error "[LoRa] Could not join network" [])
       (trace (start never_joined 7 fresh).2).
Proof.
  rewrite (start_never_reports_failure never_joined 7 fresh otaa_ttn
             [[x70; xb3; xd5; x7e; xd0; x00; x12; x34];
              [x00; x01; x02; x03; x04; x05; x06; x07;
               x08; x09; x0a; x0b; x0c; x0d; x0e; x0f]]).
  - split; [reflexivity|]. split; [reflexivity|].
    cbn [snd trace]. intros C. vm_compute in C.
    repeat (destruct C as [C|C]; [discriminate|]). destruct C.
  - vm_compute. reflexivity.
  - eexists _, _. split; [vm_compute; reflexivity|].
    split; [vm_compute; reflexivity|]. left. split; vm_compute; reflexivity.
  - reflexivity.
Defined.

(** The failure report of [start] is reached only when the radio answers
    "joined" to all 42 polls of the loop and "not joined" to the one after
    it. *)
Example start_reports_a_lost_join :
  (start lost_after_42 1 fresh).1 = Ret tt /\
  last (trace (start lost_after_42 1 fresh).2) =
    Some (ELog Error "[LoRa] Could not join network" []).
Proof. vm_compute. split; reflexivity. Qed.

(** ** No socket before Ready *)

Lemma keeps_socket_start_lora_join :
  keeps socket (fun _ => true) start_lora_join.
Proof. unfold start_lora_join, LoRa_new, lora_join, unhexlify. frame. Qed.

Lemma keeps_socket_wait_for_lora_join rad fuel a :
  keeps socket (fun _ => true) (wait_for_lora_join rad fuel a).
Proof.
  unfold wait_for_lora_join, lora_has_joined, range, log_info. frame.
  apply keeps_while_not_joined; reflexivity.
Qed.

Lemma keeps_socket_create_lora_socket :
  keeps socket (fun _ => true) create_lora_socket.
Proof.
  intros w r w'. rewrite create_lora_socket_run. intros [= <- <-].
  split; [reflexivity|]. eexists. split; reflexivity.
Qed.

Lemma keeps_socket_start rad fuel :
  keeps socket (fun _ => true) (start rad fuel).
Proof.
  unfold start.
  apply keeps_bind; [apply keeps_emit; reflexivity|intros _].
  apply keeps_bind; [apply keeps_socket_start_lora_join|intros _].
  apply keeps_bind; [apply keeps_socket_wait_for_lora_join|intros _].
  apply keeps_bind; [apply keeps_sleep; reflexivity|intros _].
  apply keeps_bind; [apply keeps_getattr|intros j].
  destruct (truthy j).
  - apply keeps_bind; [apply keeps_socket_create_lora_socket|intros _].
    apply keeps_ret.
  - apply keeps_log_error. reflexivity.
Qed.

Lemma keeps_socket_lora_send rad payload :
  keeps socket (fun _ => true) (lora_send rad payload).
Proof. unfold lora_send, socket_send, range, sleep. frame. Qed.

Lemma keeps_socket_lora_receive rad :
  keeps socket (fun _ => true) (lora_receive rad).
Proof. unfold lora_receive, socket_recvfrom, log_info, sleep. frame. Qed.

(** No sequence of method calls ever binds [self.socket]. *)
Lemma reachable_socket_unbound rad w : reachable rad w -> socket (self w) = None.
Proof.
  induction 1 as [mgr cfg|w fuel m _ IH]; [reflexivity|].
  assert (K : forall {A} (c : M A),
            keeps socket (fun _ => true) c -> socket (self (c w).2) = None).
  { intros A c Kc. destruct (c w) as [r w'] eqn:E.
    destruct (Kc _ _ _ E) as [S _]. cbn [snd]. congruence. }
  destruct m; cbn [invoke]; apply K.
  - apply keeps_socket_start.
  - apply keeps_socket_start_lora_join.
  - apply keeps_socket_wait_for_lora_join.
  - apply keeps_socket_create_lora_socket.
  - apply keeps_socket_lora_send.
  - apply keeps_socket_lora_receive.
Qed.

(** C5: on a manager that has not reached Ready, [lora_send] and
    [lora_receive] fail, with the AttributeError for the socket that does
    not exist yet, and ask nothing of the radio.  This holds in every state
    the class can bring a manager into, for every payload; the receive
    length is the constant 256. *)
Theorem transfer_before_ready_fails rad w payload :
  reachable rad w ->
  ~ Ready (self w) ->
  (exists w', lora_send rad payload w = (Raise (AttributeError "socket"), w') /\
              count is_radio (delta w w') = 0%nat) /\
  (exists w', lora_receive rad w = (Raise (AttributeError "socket"), w') /\
              count is_radio (delta w w') = 0%nat).
Proof.
  intros Hr _. pose proof (reachable_socket_unbound rad w Hr) as Hs.
  split.
  - rewrite lora_send_run, Hs. eexists. split; [reflexivity|].
    rewrite delta_app. reflexivity.
  - rewrite lora_receive_run, Hs. eexists. split; [reflexivity|].
    rewrite delta_app. reflexivity.
Qed.

(** A manager that joined and then failed to create its socket. *)
Lemma transfer_before_ready_fails_witness :
  reachable always_joined (invoke always_joined 1 m_start fresh) /\
  ~ Ready (self (invoke always_joined 1 m_start fresh)) /\
  (lora_send always_joined [x01] (invoke always_joined 1 m_start fresh)).1 =
    Raise (AttributeError "socket") /\
  (lora_receive always_joined (invoke always_joined 1 m_start fresh)).1 =
    Raise (AttributeError "socket").
Proof.
  assert (R : reachable always_joined (invoke always_joined 1 m_start fresh))
    by (apply reach_call, reach_init).
  assert (N : ~ Ready (self (invoke always_joined 1 m_start fresh)))
    by (intros [C _]; vm_compute in C; discriminate).
  destruct (transfer_before_ready_fails always_joined _ [x01] R N)
    as [(w1 & E1 & _) (w2 & E2 & _)].
  rewrite E1, E2. auto.
Defined.

(** Ready is never reached: no sequence of calls gets past the NameError of
    [create_lora_socket]. *)
Lemma reachable_not_ready rad w : reachable rad w -> ~ Ready (self w).
Proof.
  intros Hr [_ Hs]. apply Hs, (reachable_socket_unbound rad w Hr).
Qed.

(** * Further properties of the join sequence *)

(** ** Errors of the join request *)

Lemma start_lora_join_run_settings w d t :
  otaa_settings (self w) = Some d ->
  otaa_settings (self (with_lora w t)) = Some d.
Proof. intros H. exact H. Qed.

(** X1: a configuration without the "networking.lora.otaa" section makes
    [__init__] store None, and the join request then raises a TypeError at
    the first credential lookup: the radio object is already constructed
    and bound, no join has been sent. *)
Theorem start_lora_join_without_otaa_section mgr cfg :
  cfg !! "networking.lora.otaa" = None ->
  start_lora_join (init mgr cfg) =
  (Raise (TypeError "'NoneType' object is not subscriptable"),
   with_lora (init mgr cfg) [ECall m_start_lora_join; ELoRaNew LORAWAN EU868]).
Proof.
  intros H. rewrite start_lora_join_run. cbv zeta. rewrite run_bind.
  unfold otaa_getitem at 1. cbn [self with_lora set_lora otaa_settings init].
  rewrite H. reflexivity.
Qed.

Lemma start_lora_join_without_otaa_section_witness :
  start_lora_join (init 7 ∅) =
  (Raise (TypeError "'NoneType' object is not subscriptable"),
   with_lora (init 7 ∅) [ECall m_start_lora_join; ELoRaNew LORAWAN EU868]).
Proof.
  apply (start_lora_join_without_otaa_section 7 ∅). apply lookup_empty.
Defined.

(** X2: every run of [start_lora_join] first builds the radio object for
    LoRaWAN in region EU868, whatever the settings say, and leaves it bound
    in [self.lora]; a run that does not return normally has raised, and has
    raised before any join request was sent. *)
Theorem start_lora_join_builds_radio_first w r w' :
  start_lora_join w = (r, w') ->
  lora (self w') = Some the_lora /\
  (exists rest, delta w w' =
     ECall m_start_lora_join :: ELoRaNew LORAWAN EU868 :: rest) /\
  (r <> Ret tt -> (exists e, r = Raise e) /\ count is_join (delta w w') = 0%nat).
Proof.
  intros H.
  destruct (start_lora_join_inv _ _ _ H)
    as [(d & auth & _ & _ & -> & ->)|(e & -> & ->)];
    unfold with_lora; rewrite delta_app; cbn [self lora set_lora].
  - split; [reflexivity|]. split; [eauto|]. intros C. congruence.
  - split; [reflexivity|]. split; [eauto|]. intros _. split; [eauto|reflexivity].
Qed.

Lemma start_lora_join_builds_radio_first_witness :
  lora (self (start_lora_join (init 7 ∅)).2) = Some the_lora /\
  count is_join (delta (init 7 ∅) (start_lora_join (init 7 ∅)).2) = 0%nat.
Proof.
  destruct (start_lora_join (init 7 ∅)) as [r w'] eqn:E.
  destruct (start_lora_join_builds_radio_first _ _ _ E) as (L & _ & F).
  split; [exact L|]. apply F.
  assert (R : r = (start_lora_join (init 7 ∅)).1) by (rewrite E; reflexivity).
  rewrite R. vm_compute. discriminate.
Defined.

(** X3: a missing credential is reported as a KeyError that names it, in
    the order of the source: the application identifier first, the
    application key only once the identifier has been decoded. *)
Theorem start_lora_join_missing_key w d :
  otaa_settings (self w) = Some d ->
  (d !! "application_eui" = None ->
   start_lora_join w =
   (Raise (KeyError "application_eui"),
    with_lora w [ECall m_start_lora_join; ELoRaNew LORAWAN EU868])) /\
  (forall ab,
     decode_key d "application_eui" = Some ab ->
     d !! "application_key" = None ->
     start_lora_join w =
     (Raise (KeyError "application_key"),
      with_lora w [ECall m_start_lora_join; ELoRaNew LORAWAN EU868])).
Proof.
  intros Hd.
  pose proof (start_lora_join_run_settings w d) as Hd1.
  split.
  - intros Ha. rewrite start_lora_join_run. cbv zeta.
    rewrite run_bind, (otaa_getitem_run _ d), Ha by (apply Hd1, Hd).
    reflexivity.
  - intros ab Ha Hk. rewrite start_lora_join_run. cbv zeta.
    unfold decode_key in Ha.
    rewrite run_bind, (otaa_getitem_run _ d) by (apply Hd1, Hd).
    destruct (d !! "application_eui") as [[| | |a]|]; try discriminate.
    rewrite run_bind, unhexlify_run, Ha.
    rewrite run_bind, (otaa_getitem_run _ d), Hk by (apply Hd1, Hd).
    reflexivity.
Qed.

Lemma start_lora_join_missing_key_witness :
  start_lora_join (init 7 (cfg_of ∅)) =
  (Raise (KeyError "application_eui"),
   with_lora (init 7 (cfg_of ∅))
     [ECall m_start_lora_join; ELoRaNew LORAWAN EU868]).
Proof.
  apply (proj1 (start_lora_join_missing_key (init 7 (cfg_of ∅)) ∅
                  ltac:(vm_compute; reflexivity))).
  apply lookup_empty.
Defined.

(** X4: a device identifier that is present but is not a hex string of even
    length stops the join with a ValueError, although both application
    credentials were fine: nothing is sent with a missing or partial
    device identifier. *)
Theorem start_lora_join_bad_device_eui w d ab kb dv :
  otaa_settings (self w) = Some d ->
  decode_key d "application_eui" = Some ab ->
  decode_key d "application_key" = Some kb ->
  d !! "device_eui" = Some (PStr dv) ->
  unhexlify_str dv = None ->
  start_lora_join w =
  (Raise (ValueError "unhexlify"),
   with_lora w [ECall m_start_lora_join; ELoRaNew LORAWAN EU868]).
Proof.
  intros Hd Ha Hk Hdev Hbad.
  pose proof (start_lora_join_run_settings w d) as Hd1.
  rewrite start_lora_join_run. cbv zeta. unfold decode_key in Ha, Hk.
  rewrite run_bind, (otaa_getitem_run _ d) by (apply Hd1, Hd).
  destruct (d !! "application_eui") as [[| | |a]|]; try discriminate.
  rewrite run_bind, unhexlify_run, Ha.
  rewrite run_bind, (otaa_getitem_run _ d) by (apply Hd1, Hd).
  destruct (d !! "application_key") as [[| | |k]|]; try discriminate.
  rewrite run_bind, unhexlify_run, Hk.
  rewrite run_bind, (otaa_get_run _ d), Hdev by (apply Hd1, Hd).
  rewrite run_bind, (otaa_getitem_run _ d), Hdev by (apply Hd1, Hd).
  rewrite run_bind, unhexlify_run, Hbad. reflexivity.
Qed.

Lemma start_lora_join_bad_device_eui_witness :
  start_lora_join (init 7 (cfg_of (<[ "device_eui" := PStr "AA1" ]> otaa_ttn))) =
  (Raise (ValueError "unhexlify"),
   with_lora (init 7 (cfg_of (<[ "device_eui" := PStr "AA1" ]> otaa_ttn)))
     [ECall m_start_lora_join; ELoRaNew LORAWAN EU868]).
Proof.
  apply (start_lora_join_bad_device_eui _
           (<[ "device_eui" := PStr "AA1" ]> otaa_ttn)
           [x70; xb3; xd5; x7e; xd0; x00; x12; x34]
           [x00; x01; x02; x03; x04; x05; x06; x07;
            x08; x09; x0a; x0b; x0c; x0d; x0e; x0f] "AA1");
    vm_compute; reflexivity.
Defined.

(** ** Edges of the wait *)

Lemma range_list_nonpos a : a <= 0 -> range_list 0 a = [].
Proof.
  intros H. unfold range_list. replace (Z.to_nat (a - 0)) with 0%nat by lia.
  reflexivity.
Qed.

(** X5: calling [wait_for_lora_join] before any join request (no
    [self.lora] yet) raises an AttributeError at the first poll, for every
    budget and radio; by then the joined flag has already been reset to
    None. *)
Theorem wait_for_lora_join_without_radio rad fuel attempts w :
  lora (self w) = None ->
  (1 <= fuel)%nat ->
  wait_for_lora_join rad fuel attempts w =
  (Raise (AttributeError "lora"), waiting attempts w) /\
  lora_joined (self (waiting attempts w)) = Some PNone.
Proof.
  intros Hl Hf. split; [|reflexivity]. rewrite wait_for_lora_join_run.
  assert (Hl' : lora (self (waiting attempts w)) = None) by exact Hl.
  destruct (Z_le_gt_dec attempts 0) as [Ha|Ha].
  - rewrite range_list_nonpos by exact Ha.
    change (for_each [] _ (waiting attempts w))
      with (Ret tt, waiting attempts w).
    cbv beta iota. rewrite Hl'. reflexivity.
  - destruct (range_list_succ attempts) as (n & _ & ->); [lia|].
    cbn [for_each]. rewrite run_bind.
    destruct fuel as [|f]; [lia|].
    rewrite while_not_joined_step, Hl'. reflexivity.
Qed.

Lemma wait_for_lora_join_without_radio_witness :
  wait_for_lora_join always_joined 1 42 fresh =
  (Raise (AttributeError "lora"), waiting 42 fresh) /\
  lora_joined (self (waiting 42 fresh)) = Some PNone.
Proof.
  apply (wait_for_lora_join_without_radio always_joined 1 42 fresh);
    [reflexivity|lia].
Defined.

(** X6: with a budget of zero or less the loop body never runs: the radio
    is polled exactly once, nothing is slept, and the answer of that single
    poll is stored and returned. *)
Theorem wait_for_lora_join_zero_budget rad fuel attempts w l :
  lora (self w) = Some l ->
  attempts <= 0 ->
  wait_for_lora_join rad fuel attempts w =
  (Ret (PBool (has_joined_reply rad (next_poll w))),
   waited attempts (has_joined_reply rad (next_poll w)) (waiting attempts w)) /\
  sleeps_of (delta w (wait_for_lora_join rad fuel attempts w).2) = [] /\
  count is_poll (delta w (wait_for_lora_join rad fuel attempts w).2) = 1%nat.
Proof.
  intros Hl Ha.
  assert (E : wait_for_lora_join rad fuel attempts w =
    (Ret (PBool (has_joined_reply rad (next_poll w))),
     waited attempts (has_joined_reply rad (next_poll w)) (waiting attempts w))).
  { rewrite wait_for_lora_join_run, range_list_nonpos by exact Ha.
    change (for_each [] _ (waiting attempts w))
      with (Ret tt, waiting attempts w).
    cbv beta iota.
    assert (Hl' : lora (self (waiting attempts w)) = Some l) by exact Hl.
    rewrite Hl'. cbv zeta. rewrite next_poll_waiting. reflexivity. }
  rewrite E. split; [reflexivity|]. cbn [snd].
  unfold waited, waiting. cbn [trace self]. rewrite <- app_assoc.
  rewrite delta_app. unfold joined_log.
  destruct (has_joined_reply rad (next_poll w)); split; reflexivity.
Qed.

Lemma wait_for_lora_join_zero_budget_witness :
  (wait_for_lora_join never_joined 0 0
     (with_lora fresh [ECall m_start_lora_join])).1 = Ret (PBool false) /\
  sleeps_of (delta (with_lora fresh [ECall m_start_lora_join])
    (wait_for_lora_join never_joined 0 0
       (with_lora fresh [ECall m_start_lora_join])).2) = [].
Proof.
  destruct (wait_for_lora_join_zero_budget never_joined 0 0
              (with_lora fresh [ECall m_start_lora_join]) the_lora)
    as (E & S & _); [reflexivity|lia|].
  rewrite E in *. split; [reflexivity|exact S].
Defined.

(** An inner loop that ends has polled at least once. *)
Lemma while_not_joined_polls rad fuel : forall w w',
  while_not_joined rad fuel w = (Ret tt, w') ->
  (next_poll w < next_poll w')%nat.
Proof.
  induction fuel as [|f IH]; intros w w' H; [discriminate|].
  rewrite while_not_joined_step in H.
  destruct (lora (self w)); [|discriminate].
  destruct (has_joined_reply rad (next_poll w)).
  - injection H as <-. unfold next_poll. cbn [trace]. rewrite count_app.
    change (count is_poll [EHasJoined true]) with 1%nat. lia.
  - apply IH in H. unfold next_poll in *. cbn [trace] in H.
    rewrite count_app in H. lia.
Qed.

Lemma for_each_polls {A} rad fuel (xs : list A) : forall w w',
  for_each xs (fun _ => while_not_joined rad fuel) w = (Ret tt, w') ->
  (next_poll w + length xs <= next_poll w')%nat.
Proof.
  induction xs as [|x xs IH]; intros w w' H.
  - injection H as <-. simpl. lia.
  - cbn [for_each] in H. rewrite run_bind in H.
    destruct (while_not_joined rad fuel w) as [[[]|e|] w1] eqn:E;
      [|discriminate..].
    apply while_not_joined_polls in E. apply IH in H. simpl. lia.
Qed.

(** X7: a call of [wait_for_lora_join] that returns has asked the radio at
    least [attempts + 1] times: once or more in every outer iteration and
    once after the loop. *)
Theorem wait_for_lora_join_min_polls rad fuel attempts w v w' :
  wait_for_lora_join rad fuel attempts w = (Ret v, w') ->
  (Z.to_nat attempts + 1 <= count is_poll (delta w w'))%nat.
Proof.
  rewrite wait_for_lora_join_run.
  destruct (for_each _ _ (waiting attempts w)) as [[[]|e|] w2] eqn:E;
    [|discriminate..].
  destruct (lora (self w2)); [|discriminate].
  cbv zeta. intros [= _ <-].
  pose proof (for_each_polls _ _ _ _ _ E) as P.
  rewrite range_list_length, next_poll_waiting in P.
  assert (K : keeps (fun _ => tt) (fun _ => true)
            (for_each (range_list 0 attempts)
               (fun _ => while_not_joined rad fuel))).
  { apply keeps_for_each. intros _. apply keeps_while_not_joined; reflexivity. }
  destruct (K _ _ _ E) as [_ (d & T & _)].
  unfold waited. cbn [trace]. unfold next_poll in P. rewrite T in *.
  unfold waiting in *. cbn [trace] in *.
  rewrite <- !app_assoc. rewrite (delta_app w).
  rewrite !count_app in *.
  change (count is_poll [ECall (m_wait_for_lora_join attempts)]) with 0%nat in *.
  unfold joined_log.
  destruct (has_joined_reply rad _); cbn [count List.filter is_poll length];
    replace (attempts - 0) with attempts in P by lia; lia.
Qed.

Lemma wait_for_lora_join_min_polls_witness :
  (Z.to_nat 3 + 1 <=
   count is_poll
     (delta (with_lora fresh [ECall m_start_lora_join])
        (wait_for_lora_join joins_at_second_poll 10 3
           (with_lora fresh [ECall m_start_lora_join])).2))%nat.
Proof.
  destruct (wait_for_lora_join joins_at_second_poll 10 3
              (with_lora fresh [ECall m_start_lora_join])) as [r w'] eqn:E.
  assert (R : r = Ret (PBool true))
    by (change r with (r, w').1; rewrite <- E; vm_compute; reflexivity).
  subst r. exact (wait_for_lora_join_min_polls _ _ _ _ _ _ E).
Defined.

(** ** The cost of waiting *)

Lemma sleeps_of_app t d : sleeps_of (t ++ d) = (sleeps_of t ++ sleeps_of d)%list.
Proof.
  induction t as [|e t IH]; [reflexivity|].
  destruct e; simpl; rewrite IH; reflexivity.
Qed.

Lemma total_sleep_app t d : total_sleep (t ++ d) = total_sleep t + total_sleep d.
Proof.
  unfold total_sleep. rewrite sleeps_of_app.
  induction (sleeps_of t) as [|x xs IH]; simpl; lia.
Qed.

(** Inside the loops every "not joined" answer is followed by 2.6 s of
    sleep, whether the loop ends or not. *)
Lemma while_not_joined_sleep rad fuel : forall w r w',
  while_not_joined rad fuel w = (r, w') ->
  exists d, trace w' = (trace w ++ d)%list /\
    total_sleep d = 2600 * Z.of_nat (count is_not_joined d).
Proof.
  induction fuel as [|f IH]; intros w r w' H.
  - injection H as <- <-. exists []. rewrite app_nil_r. auto.
  - rewrite while_not_joined_step in H. destruct (lora (self w)).
    2:{ injection H as <- <-. exists []. rewrite app_nil_r. auto. }
    destruct (has_joined_reply rad (next_poll w)).
    + injection H as <- <-. exists [EHasJoined true]. auto.
    + apply IH in H as (d & T & S). cbn [trace] in T.
      exists (not_yet ++ d)%list. split; [rewrite T, app_assoc; reflexivity|].
      rewrite total_sleep_app, count_app, S.
      change (total_sleep not_yet) with 2600.
      change (count is_not_joined not_yet) with 1%nat. lia.
Qed.

Lemma for_each_sleep {A} rad fuel (xs : list A) : forall w r w',
  for_each xs (fun _ => while_not_joined rad fuel) w = (r, w') ->
  exists d, trace w' = (trace w ++ d)%list /\
    total_sleep d = 2600 * Z.of_nat (count is_not_joined d).
Proof.
  induction xs as [|x xs IH]; intros w r w' H.
  - injection H as <- <-. exists []. rewrite app_nil_r. auto.
  - cbn [for_each] in H. rewrite run_bind in H.
    destruct (while_not_joined rad fuel w) as [r1 w1] eqn:E.
    apply while_not_joined_sleep in E as (d1 & T1 & S1).
    destruct r1 as [[]|e|].
    + apply IH in H as (d2 & T2 & S2). exists (d1 ++ d2)%list.
      split; [rewrite T2, T1, app_assoc; reflexivity|].
      rewrite total_sleep_app, count_app. lia.
    + injection H as <- <-. eauto.
    + injection H as <- <-. eauto.
Qed.

(** X8: the time [wait_for_lora_join] sleeps is 2.6 s for every "not
    joined" answer it gets inside the loop, however the call ends; only the
    answer to the poll after the loop costs nothing. *)
Theorem wait_for_lora_join_sleep_cost rad fuel attempts w r w' :
  wait_for_lora_join rad fuel attempts w = (r, w') ->
  total_sleep (delta w w') =
  2600 * Z.of_nat (count is_not_joined (delta w w'))
  - match r with Ret (PBool false) => 2600 | _ => 0 end.
Proof.
  rewrite wait_for_lora_join_run.
  destruct (for_each _ _ (waiting attempts w)) as [r1 w2] eqn:E.
  apply for_each_sleep in E as (d & T & S).
  assert (D : delta w w2 = ECall (m_wait_for_lora_join attempts) :: d).
  { apply delta_of_app. rewrite T. unfold waiting. cbn [trace].
    rewrite <- app_assoc. reflexivity. }
  assert (C : total_sleep (delta w w2) =
              2600 * Z.of_nat (count is_not_joined (delta w w2))).
  { rewrite D.
    change (ECall (m_wait_for_lora_join attempts) :: d)
      with ([ECall (m_wait_for_lora_join attempts)] ++ d)%list.
    rewrite total_sleep_app, count_app.
    change (total_sleep [ECall (m_wait_for_lora_join attempts)]) with 0.
    change (count is_not_joined [ECall (m_wait_for_lora_join attempts)])
      with 0%nat. lia. }
  destruct r1 as [[]|e|].
  2,3: intros [= <- <-]; rewrite C; lia.
  destruct (lora (self w2)).
  2:{ intros [= <- <-]. rewrite C. lia. }
  cbv zeta. intros [= <- <-].
  assert (D' : delta w (waited attempts (has_joined_reply rad (next_poll w2)) w2)
               = (delta w w2 ++ [EHasJoined (has_joined_reply rad (next_poll w2));
                                 joined_log attempts
                                   (has_joined_reply rad (next_poll w2))])%list).
  { apply delta_of_app. unfold waited. cbn [trace]. rewrite D, T.
    unfold waiting. cbn [trace]. rewrite <- !app_assoc. reflexivity. }
  rewrite D', total_sleep_app, count_app, C. unfold joined_log.
  destruct (has_joined_reply rad (next_poll w2)); cbv [total_sleep sleeps_of
    fold_right count List.filter is_not_joined length]; lia.
Qed.

(** One "not joined" answer inside the loop: 2.6 s. *)
Lemma wait_for_lora_join_sleep_cost_witness :
  total_sleep
    (delta (with_lora fresh [ECall m_start_lora_join])
       (wait_for_lora_join joins_at_second_poll 10 3
          (with_lora fresh [ECall m_start_lora_join])).2) = 2600.
Proof.
  rewrite (wait_for_lora_join_sleep_cost joins_at_second_poll 10 3
             (with_lora fresh [ECall m_start_lora_join]) _ _
             (surjective_pairing _)).
  vm_compute. reflexivity.
Defined.

(** ** What [start] can and cannot achieve *)

Lemma next_poll_after_join w auth :
  next_poll
    (with_lora {| self := self w; trace := (trace w ++ [ECall m_start])%list |}
       [ECall m_start_lora_join; ELoRaNew LORAWAN EU868; EJoin OTAA auth 0])
  = next_poll w.
Proof.
  unfold next_poll, with_lora. cbn [trace]. rewrite !count_app.
  change (count is_poll [ECall m_start]) with 0%nat.
  change (count is_poll [ECall m_start_lora_join; ELoRaNew LORAWAN EU868;
                         EJoin OTAA auth 0]) with 0%nat. lia.
Qed.

(** X9: with good credentials and a radio that does join, [start] still
    does not bring the manager up: it ends in the NameError of
    [create_lora_socket], with the joined flag True, [lora_socket] None and
    no socket bound. *)
Theorem start_joined_ends_in_name_error rad fuel w d auth k :
  otaa_settings (self w) = Some d ->
  auth_for d auth ->
  (forall j, (j < k)%nat -> has_joined_reply rad (next_poll w + j) = false) ->
  (forall j, (k <= j)%nat -> has_joined_reply rad (next_poll w + j) = true) ->
  (k < fuel)%nat ->
  exists w',
    start rad fuel w = (Raise (NameError "socket"), w') /\
    lora_joined (self w') = Some (PBool true) /\
    lora_socket (self w') = Some PNone /\
    socket (self w') = socket (self w).
Proof.
  intros Hd Ha Hno Hyes Hfuel. unfold start. rewrite emit_bind, run_bind.
  set (w0 := {| self := self w; trace := (trace w ++ [ECall m_start])%list |}).
  rewrite (start_lora_join_ok w0 d auth Hd Ha). rewrite run_bind.
  set (w1 := with_lora w0 _).
  assert (P : next_poll w1 = next_poll w) by apply next_poll_after_join.
  destruct (wait_for_lora_join_polls_exact rad fuel 42 w1 the_lora k)
    as (w2 & E & J & _); try reflexivity; try lia;
    try (intros j Hj; rewrite P; auto).
  assert (Hl : lora (self w1) = Some the_lora) by reflexivity.
  destruct (wait_for_lora_join_inv _ _ _ _ _ _ _ Hl E) as (S & _ & _).
  unfold sockets in S. injection S as _ S1 S2.
  rewrite E, sleep_bind, run_bind. unfold getattr at 1. cbn [self].
  rewrite J. cbn [truthy]. rewrite run_bind, create_lora_socket_run.
  eexists. split; [reflexivity|]. cbn [self lora_joined lora_socket socket
    set_lora_socket]. rewrite S2. auto.
Qed.

Lemma start_joined_ends_in_name_error_witness :
  exists w',
    start joins_at_second_poll 5 fresh = (Raise (NameError "socket"), w') /\
    lora_joined (self w') = Some (PBool true) /\
    lora_socket (self w') = Some PNone /\
    socket (self w') = socket (self fresh).
Proof.
  apply (start_joined_ends_in_name_error joins_at_second_poll 5 fresh otaa_ttn
           [[x70; xb3; xd5; x7e; xd0; x00; x12; x34];
            [x00; x01; x02; x03; x04; x05; x06; x07;
             x08; x09; x0a; x0b; x0c; x0d; x0e; x0f]] 1).
  - vm_compute. reflexivity.
  - eexists _, _. split; [vm_compute; reflexivity|].
    split; [vm_compute; reflexivity|]. left. split; vm_compute; reflexivity.
  - intros j Hj. replace j with 0%nat by lia. reflexivity.
  - intros j Hj. destruct j as [|j]; [lia|reflexivity].
  - lia.
Defined.

(** X10: with good credentials and a radio that never reports joined,
    [start] never returns: after the join request it polls for ever inside
    the first of its 42 attempts and never reaches its error report. *)
Theorem start_never_returns rad fuel w d auth :
  otaa_settings (self w) = Some d ->
  auth_for d auth ->
  (forall i, has_joined_reply rad i = false) ->
  (start rad fuel w).1 = OutOfFuel /\
  ~ In (ELog Error "[LoRa] Could not join network" [])
       (delta w (start rad fuel w).2).
Proof.
  intros Hd Ha Hno. unfold start. rewrite emit_bind, run_bind.
  set (w0 := {| self := self w; trace := (trace w ++ [ECall m_start])%list |}).
  rewrite (start_lora_join_ok w0 d auth Hd Ha). rewrite run_bind.
  set (w1 := with_lora w0 _).
  rewrite wait_for_lora_join_run.
  destruct (range_list_succ 42) as (n & _ & ->); [lia|].
  cbn [for_each]. rewrite run_bind.
  rewrite (while_not_joined_forever rad fuel (waiting 42 w1) the_lora)
    by (auto; intros; apply Hno).
  split; [reflexivity|]. cbn [snd].
  unfold waiting, w1, with_lora, w0. cbn [trace self].
  rewrite <- !app_assoc. rewrite delta_app. cbn [app].
  intros C. repeat (destruct C as [C|C]; [discriminate|]).
  induction fuel as [|f IH]; [destruct C|].
  change (rounds (S f)) with (not_yet ++ rounds f)%list in C.
  apply in_app_or in C as [C|C]; [|auto].
  repeat (destruct C as [C|C]; [discriminate|]). destruct C.
Qed.

Lemma start_never_returns_witness :
  (start never_joined 30 fresh).1 = OutOfFuel.
Proof.
  apply (start_never_returns never_joined 30 fresh otaa_ttn
           [[x70; xb3; xd5; x7e; xd0; x00; x12; x34];
            [x00; x01; x02; x03; x04; x05; x06; x07;
             x08; x09; x0a; x0b; x0c; x0d; x0e; x0f]]).
  - vm_compute. reflexivity.
  - eexists _, _. split; [vm_compute; reflexivity|].
    split; [vm_compute; reflexivity|]. left. split; vm_compute; reflexivity.
  - reflexivity.
Defined.

(** ** The socket attributes over a whole life of the manager *)

Lemma keeps_lora_socket_start_lora_join :
  keeps lora_socket (fun _ => true) start_lora_join.
Proof. unfold start_lora_join, LoRa_new, lora_join, unhexlify. frame. Qed.

Lemma keeps_lora_socket_wait_for_lora_join rad fuel a :
  keeps lora_socket (fun _ => true) (wait_for_lora_join rad fuel a).
Proof.
  unfold wait_for_lora_join, lora_has_joined, range, log_info. frame.
  apply keeps_while_not_joined; reflexivity.
Qed.

Lemma keeps_lora_socket_lora_send rad payload :
  keeps lora_socket (fun _ => true) (lora_send rad payload).
Proof. unfold lora_send, socket_send, range, sleep. frame. Qed.

Lemma keeps_lora_socket_lora_receive rad :
  keeps lora_socket (fun _ => true) (lora_receive rad).
Proof. unfold lora_receive, socket_recvfrom, log_info, sleep. frame. Qed.

(** A call of [start] leaves [lora_socket] alone or resets it to None. *)
Lemma start_lora_socket rad fuel w :
  lora_socket (self (start rad fuel w).2) = lora_socket (self w) \/
  lora_socket (self (start rad fuel w).2) = Some PNone.
Proof.
  unfold start. rewrite emit_bind, run_bind.
  set (w0 := {| self := self w; trace := (trace w ++ [ECall m_start])%list |}).
  destruct (start_lora_join w0) as [r1 w1] eqn:E1.
  destruct (keeps_lora_socket_start_lora_join _ _ _ E1) as [S1 _].
  unfold w0 in S1. cbn [self] in S1.
  destruct r1 as [[]|e|]; [|left; exact S1..].
  rewrite run_bind.
  destruct (wait_for_lora_join rad fuel 42 w1) as [r2 w2] eqn:E2.
  destruct (keeps_lora_socket_wait_for_lora_join _ _ _ _ _ _ E2) as [S2 _].
  destruct r2 as [v|e|]; [|left; cbn [snd]; congruence..].
  rewrite sleep_bind, run_bind. unfold getattr. cbn [self].
  destruct (lora_joined (self w2)) as [j|]; [|left; cbn [snd self]; congruence].
  cbv beta iota. destruct (truthy j).
  - right. rewrite run_bind, create_lora_socket_run. reflexivity.
  - left. rewrite log_error_run. cbn [snd self]. congruence.
Qed.

(** X11: whatever methods are called on a manager, in whatever order and
    with whatever arguments and radio, the session socket never comes into
    being: [self.socket] stays unbound and [self.lora_socket] is never
    True. *)
Theorem reachable_socketless rad w : reachable rad w -> socketless (self w).
Proof.
  intros Hr. split; [exact (reachable_socket_unbound rad w Hr)|].
  induction Hr as [mgr cfg|w fuel m _ IH]; [left; reflexivity|].
  assert (K : forall {A} (c : M A),
            keeps lora_socket (fun _ => true) c ->
            lora_socket (self (c w).2) = None \/
            lora_socket (self (c w).2) = Some PNone).
  { intros A c Kc. destruct (c w) as [r w'] eqn:E.
    destruct (Kc _ _ _ E) as [S _]. cbn [snd]. rewrite S. exact IH. }
  destruct m; cbn [invoke].
  - destruct (start_lora_socket rad fuel w) as [S|S]; rewrite S; auto.
  - apply K, keeps_lora_socket_start_lora_join.
  - apply K, keeps_lora_socket_wait_for_lora_join.
  - right. rewrite create_lora_socket_run. reflexivity.
  - apply K, keeps_lora_socket_lora_send.
  - apply K, keeps_lora_socket_lora_receive.
Qed.

(** A manager that was started twice and then asked to create its socket
    directly. *)
Lemma reachable_socketless_witness :
  socketless
    (self (invoke always_joined 1 m_create_lora_socket
             (invoke always_joined 1 m_start
                (invoke always_joined 1 m_start fresh)))).
Proof.
  apply (reachable_socketless always_joined).
  repeat apply reach_call. apply reach_init.
Defined.

(** * The host-side agent: MAC addresses *)

Module TerkinProofs.
Import Terkin.

Example normalize_example :
  normalize_mac_address "30:AE:A4-12.34" = "30aea41234".
Proof. reflexivity. Qed.

Example format_example : format_mac_address "30AEA4123" = "30:ae:a4:12".
Proof. reflexivity. Qed.

Example prepare_example :
  prepare_prefixes ["30:ae:a4"; "80-7D-3A"] = ["30:ae:a4"; "80:7d:3a"].
Proof. reflexivity. Qed.

Ltac each_char c :=
  destruct c as [[] [] [] [] [] [] [] []]; vm_compute; reflexivity.

Lemma lower_char_idem c : lower_char (lower_char c) = lower_char c.
Proof. each_char c. Qed.

Lemma lower_char_sep c : is_sep (lower_char c) = is_sep c.
Proof. each_char c. Qed.

Lemma str_filter_ext p q s :
  (forall x, p x = q x) -> str_filter p s = str_filter q s.
Proof.
  intros H. induction s as [|c r IH]; [reflexivity|].
  simpl. rewrite H, IH. reflexivity.
Qed.

Lemma str_filter_filter p q s :
  str_filter p (str_filter q s) = str_filter (fun x => q x && p x) s.
Proof.
  induction s as [|c r IH]; [reflexivity|]. simpl.
  destruct (q c); simpl; [destruct (p c)|]; rewrite IH; reflexivity.
Qed.

Lemma str_filter_map p f s :
  str_filter p (str_map f s) = str_map f (str_filter (fun x => p (f x)) s).
Proof.
  induction s as [|c r IH]; [reflexivity|]. simpl.
  destruct (p (f c)); simpl; rewrite IH; reflexivity.
Qed.

Lemma str_filter_app p a b :
  str_filter p (a ++ b) = (str_filter p a ++ str_filter p b)%string.
Proof.
  induction a as [|c r IH]; [reflexivity|]. simpl.
  destruct (p c); simpl; rewrite IH; reflexivity.
Qed.

Lemma str_map_app f a b :
  str_map f (a ++ b) = (str_map f a ++ str_map f b)%string.
Proof. induction a as [|c r IH]; [reflexivity|]. simpl. rewrite IH. reflexivity. Qed.

Lemma str_map_map f g s : str_map f (str_map g s) = str_map (fun x => f (g x)) s.
Proof. induction s as [|c r IH]; [reflexivity|]. simpl. rewrite IH. reflexivity. Qed.

Lemma str_map_ext f g s : (forall x, f x = g x) -> str_map f s = str_map g s.
Proof.
  intros H. induction s as [|c r IH]; [reflexivity|].
  simpl. rewrite H, IH. reflexivity.
Qed.

Lemma lower_idem s : lower (lower s) = lower s.
Proof. unfold lower. rewrite str_map_map. apply str_map_ext, lower_char_idem. Qed.

(** Normalising is lower-casing and then dropping the three separators. *)
Lemma normalize_as_filter s :
  normalize_mac_address s = str_filter (fun x => negb (is_sep x)) (lower s).
Proof.
  unfold normalize_mac_address, remove_char. rewrite !str_filter_filter.
  apply str_filter_ext. intros x. unfold is_sep.
  destruct (Ascii.eqb x ":"), (Ascii.eqb x "-"), (Ascii.eqb x "."); reflexivity.
Qed.

(** Lower-casing neither creates nor destroys a separator. *)
Lemma lower_drop_seps s :
  lower (str_filter (fun x => negb (is_sep x)) s) =
  str_filter (fun x => negb (is_sep x)) (lower s).
Proof.
  unfold lower. rewrite str_filter_map. f_equal.
  apply str_filter_ext. intros x. rewrite lower_char_sep. reflexivity.
Qed.

(** X12: normalising a MAC address twice changes nothing more: the result
    of [normalize_mac_address] is a fixed point. *)
Theorem normalize_mac_address_idempotent s :
  normalize_mac_address (normalize_mac_address s) = normalize_mac_address s.
Proof.
  rewrite !normalize_as_filter, lower_drop_seps, lower_idem, str_filter_filter.
  apply str_filter_ext. intros x. destruct (is_sep x); reflexivity.
Qed.

Lemma chars_filter p s c :
  In c (chars (str_filter p s)) -> p c = true /\ In c (chars s).
Proof.
  induction s as [|a r IH]; simpl; [tauto|].
  destruct (p a) eqn:E; simpl.
  - intros [<-|H]; [auto|]. apply IH in H. tauto.
  - intros H. apply IH in H. tauto.
Qed.

Lemma chars_map f s c :
  In c (chars (str_map f s)) -> exists x, c = f x.
Proof.
  induction s as [|a r IH]; simpl; [tauto|]. intros [<-|H]; eauto.
Qed.

(** X13: a normalised MAC address contains no ':', '-' or '.' and no
    capital letter: lower-casing any of its characters leaves it as it is. *)
Theorem normalize_mac_address_clean s c :
  In c (chars (normalize_mac_address s)) ->
  c <> ":"%char /\ c <> "-"%char /\ c <> "."%char /\ lower_char c = c.
Proof.
  rewrite normalize_as_filter. intros H.
  apply chars_filter in H as [Hs H]. apply chars_map in H as [x ->].
  unfold is_sep in Hs.
  destruct (Ascii.eqb_spec (lower_char x) ":"),
           (Ascii.eqb_spec (lower_char x) "-"),
           (Ascii.eqb_spec (lower_char x) "."); try discriminate.
  auto using lower_char_idem.
Qed.

Lemma normalize_mac_address_clean_witness :
  "a"%char <> ":"%char /\ "a"%char <> "-"%char /\ "a"%char <> "."%char /\
  lower_char "a" = "a"%char.
Proof.
  apply (normalize_mac_address_clean "30:AE:A4" "a"). vm_compute. auto 10.
Defined.

(** ** Grouping and formatting *)

Lemma str_length_app a b :
  String.length (a ++ b) = (String.length a + String.length b)%nat.
Proof. induction a as [|c r IH]; simpl; [|rewrite IH]; reflexivity. Qed.

Lemma str_app_cons c r b : (String c r ++ b)%string = String c (r ++ b).
Proof. reflexivity. Qed.

Lemma str_app_nil a : (a ++ "")%string = a.
Proof.
  induction a as [|c r IH]; [reflexivity|]. rewrite str_app_cons, IH. reflexivity.
Qed.

Lemma str_app_assoc a b c : ((a ++ b) ++ c)%string = (a ++ b ++ c)%string.
Proof.
  induction a as [|x r IH]; [reflexivity|]. rewrite !str_app_cons, IH. reflexivity.
Qed.

Lemma pull_some n : forall s part rest,
  pull n s = Some (part, rest) ->
  s = (part ++ rest)%string /\ String.length part = n.
Proof.
  induction n as [|k IH]; intros s part rest H; simpl in H.
  - injection H as <- <-. auto.
  - destruct s as [|c r]; [discriminate|].
    destruct (pull k r) as [[p q]|] eqn:E; [|discriminate].
    injection H as <- <-. apply IH in E as [-> <-]. auto.
Qed.

Lemma pull_none n : forall s, pull n s = None -> (String.length s < n)%nat.
Proof.
  induction n as [|k IH]; intros s H; simpl in H; [discriminate|].
  destruct s as [|c r]; [simpl; lia|].
  destruct (pull k r) as [[p q]|] eqn:E; [discriminate|].
  apply IH in E. simpl. lia.
Qed.

Lemma zip_shared_spec n fuel : (1 <= n)%nat -> forall s,
  (String.length s <= fuel)%nat ->
  exists tail,
    s = (str_concat (zip_shared fuel n s) ++ tail)%string /\
    (String.length tail < n)%nat /\
    Forall (fun part => String.length part = n) (zip_shared fuel n s).
Proof.
  intros Hn. induction fuel as [|f IH]; intros s Hs.
  - exists s. simpl. repeat split; [lia|constructor].
  - simpl. destruct (pull n s) as [[part rest]|] eqn:E.
    + apply pull_some in E as [-> Hp].
      rewrite str_length_app in Hs.
      destruct (IH rest) as (tail & Hr & Ht & Hf); [lia|].
      exists tail. simpl. rewrite str_app_assoc, <- Hr.
      repeat split; [exact Ht|]. constructor; assumption.
    + apply pull_none in E. exists s. simpl. repeat split; [exact E|constructor].
Qed.

(** X14: [str_grouper(n, s)] cuts [s] into consecutive pieces of exactly
    [n] characters and silently drops what is left over at the end (fewer
    than [n] characters); with [n = 0] it yields nothing at all. *)
Theorem str_grouper_chunks n s :
  str_grouper 0 s = [] /\
  ((1 <= n)%nat ->
   exists tail,
     s = (str_concat (str_grouper n s) ++ tail)%string /\
     (String.length tail < n)%nat /\
     Forall (fun part => String.length part = n) (str_grouper n s)).
Proof.
  split; [reflexivity|]. intros Hn. destruct n as [|k]; [lia|].
  apply (zip_shared_spec (S k) (String.length s)); lia.
Qed.

Lemma str_grouper_chunks_witness :
  exists tail,
    "30aea" = (str_concat (str_grouper 2 "30aea") ++ tail)%string /\
    (String.length tail < 2)%nat /\
    Forall (fun part => String.length part = 2%nat) (str_grouper 2 "30aea").
Proof. apply (proj2 (str_grouper_chunks 2 "30aea")). lia. Defined.

Lemma drop_seps_join parts :
  str_filter (fun x => negb (is_sep x)) (join ":" parts) =
  str_filter (fun x => negb (is_sep x)) (str_concat parts).
Proof.
  induction parts as [|p [|q r] IH].
  - reflexivity.
  - simpl. rewrite str_app_nil. reflexivity.
  - change (join ":" (p :: q :: r)) with (p ++ ":" ++ join ":" (q :: r))%string.
    change (str_concat (p :: q :: r)) with (p ++ str_concat (q :: r))%string.
    rewrite !str_filter_app, IH. reflexivity.
Qed.

(** Normalising a formatted address undoes the formatting. *)
Lemma normalize_format m :
  normalize_mac_address (format_mac_address m) =
  normalize_mac_address (str_concat (str_grouper 2 m)).
Proof.
  unfold format_mac_address.
  rewrite !normalize_as_filter, lower_idem, <- !lower_drop_seps, drop_seps_join.
  reflexivity.
Qed.

Lemma even_concat parts :
  Forall (fun part => String.length part = 2%nat) parts ->
  Nat.even (String.length (str_concat parts)) = true.
Proof.
  induction 1 as [|p r Hp _ IH]; [reflexivity|].
  simpl. rewrite str_length_app, Hp. exact IH.
Qed.

Lemma str_grouper_even m :
  Nat.even (String.length m) = true -> str_concat (str_grouper 2 m) = m.
Proof.
  intros He.
  destruct (zip_shared_spec 2 (String.length m) ltac:(lia) m ltac:(lia))
    as (tail & Hm & Ht & Hf).
  change (zip_shared (String.length m) 2 m) with (str_grouper 2 m) in Hm, Hf.
  apply even_concat in Hf.
  assert (L : String.length m =
              (String.length (str_concat (str_grouper 2 m)) + String.length tail)%nat)
    by (rewrite Hm at 1; apply str_length_app).
  rewrite L, Nat.even_add, Hf in He.
  destruct tail as [|a [|b t]]; simpl in *; try discriminate; try lia.
  rewrite str_app_nil in Hm. auto.
Qed.

(** X15: formatting and normalising are inverse to each other on addresses
    with an even number of characters: [normalize(format(m))] is
    [normalize(m)], so a normalised address of even length comes back
    unchanged. *)
Theorem format_then_normalize m :
  Nat.even (String.length m) = true ->
  normalize_mac_address (format_mac_address m) = normalize_mac_address m /\
  (normalize_mac_address m = m ->
   normalize_mac_address (format_mac_address m) = m).
Proof.
  intros He. rewrite normalize_format, str_grouper_even by exact He.
  split; auto.
Qed.

Lemma format_then_normalize_witness :
  normalize_mac_address (format_mac_address "30aea4123456") = "30aea4123456".
Proof.
  apply (proj2 (format_then_normalize "30aea4123456" eq_refl)). reflexivity.
Defined.

Lemma zip_shared_odd_tail c : forall f1 f2 m,
  Nat.even (String.length m) = true ->
  (String.length m <= f1)%nat -> (String.length m + 1 <= f2)%nat ->
  zip_shared f2 2 (m ++ String c "") = zip_shared f1 2 m.
Proof.
  induction f1 as [|f1 IH]; intros f2 m He H1 H2.
  - destruct m; [|simpl in H1; lia]. destruct f2; [simpl in H2; lia|reflexivity].
  - destruct m as [|a [|b r]].
    + destruct f2; [simpl in H2; lia|reflexivity].
    + discriminate.
    + destruct f2 as [|f2]; [simpl in H2; lia|].
      simpl in *. f_equal. apply IH; [exact He|lia|lia].
Qed.

(** X16: an address with an odd number of characters loses its last
    character when it is formatted: the half byte at the end is dropped
    without an error. *)
Theorem format_drops_odd_tail m c :
  Nat.even (String.length m) = true ->
  format_mac_address (m ++ String c "") = format_mac_address m.
Proof.
  intros He. unfold format_mac_address, str_grouper. do 2 f_equal.
  apply zip_shared_odd_tail; [exact He|lia|].
  rewrite str_length_app. simpl. lia.
Qed.

Lemma format_drops_odd_tail_witness :
  format_mac_address "30aea" = format_mac_address "30ae".
Proof. apply (format_drops_odd_tail "30ae" "a"). reflexivity. Defined.

(** * The host-side agent: devices *)

Lemma hrun_bind {A B} (m : HM A) (k : A -> HM B) w :
  (m ≫= k) w =
  match m w with
  | (HRet a, w') => k a w'
  | (HRaise e, w') => (HRaise e, w')
  | (HOutOfFuel, w') => (HOutOfFuel, w')
  end.
Proof. reflexivity. Qed.

Lemma say_bind {B} e (k : unit -> HM B) w :
  (say e ≫= k) w =
  k tt {| monitor := monitor w; out := (out w ++ [e])%list |}.
Proof. reflexivity. Qed.

Lemma hcount_app p t d : hcount p (t ++ d) = (hcount p t + hcount p d)%nat.
Proof. unfold hcount. rewrite List.filter_app, length_app. reflexivity. Qed.

Lemma hdelta_app w d m :
  hdelta w {| monitor := m; out := (out w ++ d)%list |} = d.
Proof. unfold hdelta. simpl. apply drop_app_length. Qed.

Lemma startswith_spec p : forall s,
  startswith s p = true <-> exists rest, s = (p ++ rest)%string.
Proof.
  induction p as [|b q IH]; intros s.
  - destruct s; simpl; split; eauto.
  - destruct s as [|a r]; simpl.
    + split; [discriminate|]. intros [rest H]. discriminate.
    + rewrite andb_true_iff, IH. split.
      * intros [E [rest ->]]. apply Ascii.eqb_eq in E as ->.
        exists rest. reflexivity.
      * intros [rest H]. rewrite str_app_cons in H. injection H as -> ->.
        split; [apply Ascii.eqb_refl|eauto].
Qed.

Lemma any_prefix_spec m prefixes :
  any_prefix m prefixes = true <->
  exists prefix rest,
    In prefix prefixes /\ m = (normalize_mac_address prefix ++ rest)%string.
Proof.
  induction prefixes as [|p r IH]; simpl.
  - split; [discriminate|]. intros (? & ? & [] & _).
  - destruct (startswith m (normalize_mac_address p)) eqn:E.
    + apply startswith_spec in E as [rest E]. split; [|reflexivity].
      intros _. exists p, rest. auto.
    + rewrite IH. split.
      * intros (q & rest & Hq & Hm). exists q, rest. auto.
      * intros (q & rest & [<-|Hq] & Hm); [|eauto].
        assert (C : startswith m (normalize_mac_address p) = true)
          by (apply startswith_spec; eauto).
        congruence.
Qed.

(** X17: [match_mac_prefix] answers True exactly when the normalised MAC
    address begins with the normalised form of one of the prefixes, so
    neither the case nor the separators of either side matter; with no
    prefix in the list it answers False, and it leaves the monitor alone. *)
Theorem match_mac_prefix_spec w prefixes mac_address :
  mac_prefixes (monitor w) = Some prefixes ->
  exists b,
    match_mac_prefix mac_address w = (HRet b, w) /\
    (b = true <->
     exists prefix rest,
       In prefix prefixes /\
       normalize_mac_address mac_address =
       (normalize_mac_address prefix ++ rest)%string) /\
    (prefixes = [] -> b = false).
Proof.
  intros H. unfold match_mac_prefix. rewrite H. eexists.
  split; [reflexivity|]. split; [apply any_prefix_spec|].
  intros ->. reflexivity.
Qed.

Lemma match_mac_prefix_spec_witness :
  match_mac_prefix "30-AE-A4-12-34-56" (host0 (Some ["80:7D:3A"; "30:ae:a4"]) None)
  = (HRet true, host0 (Some ["80:7D:3A"; "30:ae:a4"]) None).
Proof.
  destruct (match_mac_prefix_spec (host0 (Some ["80:7D:3A"; "30:ae:a4"]) None)
              ["80:7D:3A"; "30:ae:a4"] "30-AE-A4-12-34-56" eq_refl)
    as (b & E & Hb & _).
  rewrite E. f_equal. f_equal. apply Hb.
  exists "30:ae:a4", "123456". split; [simpl; auto|reflexivity].
Defined.

(** X18: the prefixes as the main program prepares them (normalised, then
    formatted) match exactly the same MAC addresses as the prefixes the user
    gave, provided each has an even number of hex digits. *)
Theorem prepared_prefixes_match_the_same prefixes m :
  (forall prefix, In prefix prefixes ->
     Nat.even (String.length (normalize_mac_address prefix)) = true) ->
  any_prefix m (prepare_prefixes prefixes) = any_prefix m prefixes.
Proof.
  unfold prepare_prefixes. induction prefixes as [|p r IH]; intros H.
  - reflexivity.
  - simpl. rewrite IH by (intros q Hq; apply H; right; exact Hq).
    rewrite normalize_format, str_grouper_even by (apply H; left; reflexivity).
    assert (N : normalize_mac_address (normalize_mac_address p) =
                normalize_mac_address p).
    { rewrite !normalize_as_filter, lower_drop_seps, lower_idem,
        str_filter_filter.
      apply str_filter_ext. intros x. destruct (is_sep x); reflexivity. }
    rewrite N. reflexivity.
Qed.

Lemma prepared_prefixes_match_the_same_witness :
  any_prefix "30aea4123456" (prepare_prefixes ["30-AE-A4"; "80:7d:3a"]) =
  any_prefix "30aea4123456" ["30-AE-A4"; "80:7d:3a"].
Proof.
  apply (prepared_prefixes_match_the_same ["30-AE-A4"; "80:7d:3a"]).
  intros prefix [<-|[<-|[]]]; reflexivity.
Defined.

(** Runs a loop-free computation of the agent. *)
Ltac hrun :=
  unfold mbind, HM_bind, hbind, mret, HM_ret, hret, hraise, say, get_mode,
    set_mode, get_out; cbn [monitor out mode mac_prefixes fst snd].

Lemma hdelta_of_app w w' d : out w' = (out w ++ d)%list -> hdelta w w' = d.
Proof. intros H. unfold hdelta. rewrite H. apply drop_app_length. Qed.

(** What [toggle_maintenance] does, by the mode of the monitor. *)
Lemma toggle_maintenance_run member w :
  toggle_maintenance member w =
  (HRet tt,
   {| monitor := monitor w;
      out := (out w ++
              [HLog INFO (connecting (ip member) 666); HSocketNew;
               HSetblocking false; HConnect (ip member) 666] ++
              match mode (monitor w) with
              | Some 1 => [HLog INFO (pulling (ip member));
                           HSend "maintenance.enable()"]
              | Some 2 => [HLog INFO (releasing (ip member));
                           HSend "maintenance.disable()"]
              | _ => []
              end)%list |}).
Proof.
  unfold toggle_maintenance. hrun.
  repeat case_bool_decide; unfold maintenance, field_mode in *.
  - replace (mode (monitor w)) with (Some 1) by auto.
    cbn [monitor out]. rewrite <- !app_assoc. reflexivity.
  - replace (mode (monitor w)) with (Some 2) by auto.
    cbn [monitor out]. rewrite <- !app_assoc. reflexivity.
  - cbn [monitor out]. rewrite <- !app_assoc.
    destruct (mode (monitor w)) as [[|[q|q|]|p]|]; try reflexivity;
      [destruct q; try reflexivity|]; congruence.
Qed.

(** X19: what [device_action] sends to a device is decided by the mode
    alone.  Without a mode no UDP socket is opened at all; with a mode the
    agent connects to port 666 of the device and sends
    "maintenance.enable()" for mode 1, "maintenance.disable()" for mode 2
    and nothing for any other value.  In every case the address is then
    written to .terkin/floatip and the call returns. *)
Theorem device_action_udp w member :
  (device_action member w).1 = HRet tt /\
  monitor (device_action member w).2 = monitor w /\
  List.filter is_udp (hdelta w (device_action member w).2) =
    match mode (monitor w) with
    | None => []
    | Some m =>
        ([HSocketNew; HSetblocking false; HConnect (ip member) 666] ++
         (if m =? 1 then [HSend "maintenance.enable()"]
          else if m =? 2 then [HSend "maintenance.disable()"]
          else []))%list
    end /\
  In (HWriteFile [".terkin"; "floatip"] (ip member))
     (hdelta w (device_action member w).2).
Proof.
  unfold device_action, write_floating_address, notify_user. hrun.
  destruct (mode (monitor w)) as [m|] eqn:E.
  - rewrite toggle_maintenance_run, E. cbn [monitor out fst snd].
    split; [reflexivity|]. split; [reflexivity|].
    rewrite <- !app_assoc, hdelta_app.
    destruct m as [|[q|q|]|p]; try (cbn; auto 20; fail).
    destruct q; cbn; auto 20.
  - cbn [monitor out fst snd]. split; [reflexivity|]. split; [reflexivity|].
    rewrite <- !app_assoc, hdelta_app. cbn. auto.
Qed.

Lemma arp_display_run a w :
  exists d,
    arp_display a w = (HRet tt, {| monitor := monitor w; out := (out w ++ d)%list |}) /\
    forallb (fun e => negb (is_action e)) d = true.
Proof.
  unfold arp_display, TRACE. hrun.
  destruct (op a =? 1), (op a =? 2); cbn [monitor out]; eexists;
    (split; [rewrite <- ?app_assoc; reflexivity|reflexivity]).
Qed.

(** The events of [device_action], by what is asked about them later. *)
Lemma device_action_run member w :
  exists d,
    device_action member w =
    (HRet tt, {| monitor := monitor w; out := (out w ++ d)%list |}) /\
    In (HWriteFile [".terkin"; "floatip"] (ip member)) d /\
    (mode (monitor w) = None -> hcount is_udp d = 0%nat) /\
    (mode (monitor w) = Some 1 ->
     hcount (sends "maintenance.enable()") d = 1%nat /\
     hcount (sends "maintenance.disable()") d = 0%nat).
Proof.
  unfold device_action, write_floating_address, notify_user. hrun.
  destruct (mode (monitor w)) as [m|] eqn:E.
  - rewrite toggle_maintenance_run, E. cbn [monitor out fst snd].
    eexists. split; [rewrite <- !app_assoc; reflexivity|].
    split; [|split; [discriminate|intros [= ->]; split; reflexivity]].
    apply in_or_app. right. apply in_or_app. right. simpl. auto.
  - cbn [monitor out fst snd].
    eexists. split; [rewrite <- !app_assoc; reflexivity|].
    split; [simpl; auto|]. split; [reflexivity|discriminate].
Qed.

Lemma forallb_no_action d p :
  (forall e, p e = true -> is_action e = true) ->
  forallb (fun e => negb (is_action e)) d = true -> hcount p d = 0%nat.
Proof.
  intros Hp. induction d as [|e d IH]; [reflexivity|]. simpl.
  intros [He Hd]%andb_prop. unfold hcount in *. simpl.
  destruct (p e) eqn:E; [|auto]. apply Hp in E. rewrite E in He. discriminate.
Qed.

Lemma match_mac_prefix_run w prefixes mac_address :
  mac_prefixes (monitor w) = Some prefixes ->
  match_mac_prefix mac_address w =
  (HRet (any_prefix (normalize_mac_address mac_address) prefixes), w).
Proof. intros H. unfold match_mac_prefix. rewrite H. reflexivity. Qed.

(** X20: with a list of prefixes, [check_esp32] takes a device up exactly
    when the packet has an ARP layer, its source address is not 0.0.0.0 and
    its MAC address has one of the prefixes.  Any other packet is shown in
    the debug log and dropped: no socket, no file, no notification.  For a
    device taken up, its source address is written to .terkin/floatip. *)
Theorem check_esp32_filter w prefixes pkt :
  mac_prefixes (monitor w) = Some prefixes ->
  (check_esp32 pkt w).1 = HRet tt /\
  monitor (check_esp32 pkt w).2 = monitor w /\
  (accepted prefixes pkt = false ->
   hcount is_action (hdelta w (check_esp32 pkt w).2) = 0%nat) /\
  (accepted prefixes pkt = true ->
   exists a, pkt = Some a /\
     In (HLog INFO (found_device (hwsrc a) (psrc a)))
        (hdelta w (check_esp32 pkt w).2) /\
     In (HWriteFile [".terkin"; "floatip"] (psrc a))
        (hdelta w (check_esp32 pkt w).2)).
Proof.
  intros Hp. destruct pkt as [a|]; cbn [check_esp32 accepted].
  2:{ unfold mret, HM_ret, hret. cbn [fst snd].
      split; [reflexivity|]. split; [reflexivity|]. split; [|discriminate].
      intros _. unfold hdelta. rewrite drop_all. reflexivity. }
  rewrite hrun_bind. destruct (arp_display_run a w) as (d & -> & Fd).
  cbv beta iota. set (w1 := {| monitor := monitor w; out := (out w ++ d)%list |}).
  rewrite hrun_bind. destruct (String.eqb (psrc a) "0.0.0.0") eqn:E0.
  - unfold mret, HM_ret, hret. cbn [fst snd negb andb].
    split; [reflexivity|]. split; [reflexivity|]. split; [|discriminate].
    intros _. unfold w1. rewrite hdelta_app. apply forallb_no_action; auto.
  - assert (Hp1 : mac_prefixes (monitor w1) = Some prefixes) by exact Hp.
    rewrite hrun_bind, (match_mac_prefix_run _ _ _ Hp1). cbv beta iota.
    cbn [negb andb].
    destruct (any_prefix (normalize_mac_address (hwsrc a)) prefixes).
    + cbn [negb]. unfold mret, HM_ret, hret. cbv beta iota.
      rewrite say_bind.
      destruct (device_action_run {| mac := hwsrc a; ip := psrc a |}
                  {| monitor := monitor w1;
                     out := (out w1 ++ [HLog INFO (found_device (hwsrc a) (psrc a))])%list |})
        as (d2 & E2 & W & _).
      cbn [mac ip] in *. rewrite E2. cbn [fst snd monitor out w1].
      split; [reflexivity|]. split; [reflexivity|]. split; [discriminate|].
      intros _. exists a.
      rewrite <- !app_assoc, hdelta_app. split; [reflexivity|].
      split; apply in_or_app; right; [left; reflexivity|].
      right. exact W.
    + cbn [negb]. unfold mret, HM_ret, hret. cbn [fst snd].
      split; [reflexivity|]. split; [reflexivity|]. split; [|discriminate].
      intros _. unfold w1. rewrite hdelta_app. apply forallb_no_action; auto.
Qed.

Lemma check_esp32_filter_witness :
  exists a, wipy = Some a /\
    In (HLog INFO (found_device (hwsrc a) (psrc a)))
       (hdelta (host0 (Some ["30:ae:a4"]) (Some 1))
          (check_esp32 wipy (host0 (Some ["30:ae:a4"]) (Some 1))).2) /\
    In (HWriteFile [".terkin"; "floatip"] (psrc a))
       (hdelta (host0 (Some ["30:ae:a4"]) (Some 1))
          (check_esp32 wipy (host0 (Some ["30:ae:a4"]) (Some 1))).2).
Proof.
  destruct (check_esp32_filter (host0 (Some ["30:ae:a4"]) (Some 1))
              ["30:ae:a4"] wipy eq_refl) as (_ & _ & _ & A).
  apply A. reflexivity.
Defined.

(** X21: a monitor built without prefixes (the default of the constructor)
    cannot judge a MAC address.  [check_esp32] still drops a packet from
    0.0.0.0 quietly, because that test comes first; for any other ARP packet
    it raises a TypeError from [match_mac_prefix], before anything is done
    about the device. *)
Theorem check_esp32_without_prefixes w a :
  mac_prefixes (monitor w) = None ->
  (psrc a = "0.0.0.0" -> (check_esp32 (Some a) w).1 = HRet tt) /\
  (psrc a <> "0.0.0.0" ->
   (check_esp32 (Some a) w).1 =
   HRaise (HTypeError "'NoneType' object is not iterable")) /\
  hcount is_action (hdelta w (check_esp32 (Some a) w).2) = 0%nat.
Proof.
  intros Hp. cbn [check_esp32].
  rewrite hrun_bind. destruct (arp_display_run a w) as (d & -> & Fd).
  cbv beta iota. set (w1 := {| monitor := monitor w; out := (out w ++ d)%list |}).
  rewrite hrun_bind. destruct (String.eqb_spec (psrc a) "0.0.0.0") as [E0|E0].
  - unfold mret, HM_ret, hret. cbn [fst snd].
    split; [reflexivity|]. split; [congruence|]. unfold w1.
    rewrite hdelta_app. apply forallb_no_action; auto.
  - assert (Hp1 : mac_prefixes (monitor w1) = None) by exact Hp.
    rewrite hrun_bind. unfold match_mac_prefix. rewrite Hp1.
    cbv beta iota zeta. cbn [fst snd].
    split; [congruence|]. split; [reflexivity|]. unfold w1.
    rewrite hdelta_app. apply forallb_no_action; auto.
Qed.

Lemma check_esp32_without_prefixes_witness :
  (check_esp32 wipy (host0 None (Some 1))).1 =
  HRaise (HTypeError "'NoneType' object is not iterable").
Proof.
  destruct wipy as [a|] eqn:E; [|discriminate].
  apply (proj1 (proj2 (check_esp32_without_prefixes (host0 None (Some 1)) a
                         eq_refl))).
  injection E as <-. discriminate.
Defined.

(** ** A whole run of the monitor *)

Lemma udp_is_action e : is_udp e = true -> is_action e = true.
Proof. destruct e; simpl; auto. Qed.

Lemma sends_is_action payload e : sends payload e = true -> is_action e = true.
Proof. destruct e; simpl; auto; discriminate. Qed.

(** One packet, for the two questions asked about a whole run. *)
Lemma check_esp32_run pkt w :
  exists r d,
    check_esp32 pkt w = (r, {| monitor := monitor w; out := (out w ++ d)%list |}) /\
    (mode (monitor w) = None -> hcount is_udp d = 0%nat) /\
    (forall prefixes,
       mac_prefixes (monitor w) = Some prefixes ->
       r = HRet tt /\
       (mode (monitor w) = Some 1 ->
        hcount (sends "maintenance.enable()") d =
          (if accepted prefixes pkt then 1%nat else 0%nat) /\
        hcount (sends "maintenance.disable()") d = 0%nat)).
Proof.
  destruct pkt as [a|]; cbn [check_esp32 accepted].
  2:{ exists (HRet tt), []. rewrite app_nil_r. destruct w.
    split; [reflexivity|]. split; [reflexivity|]. intros ps _.
    split; [reflexivity|]. intros _. split; reflexivity. }
  rewrite hrun_bind. destruct (arp_display_run a w) as (d & -> & Fd).
  cbv beta iota. set (w1 := {| monitor := monitor w; out := (out w ++ d)%list |}).
  pose proof (forallb_no_action d is_udp udp_is_action Fd) as U.
  pose proof (forallb_no_action d _ (sends_is_action "maintenance.enable()") Fd) as En.
  pose proof (forallb_no_action d _ (sends_is_action "maintenance.disable()") Fd) as Di.
  rewrite hrun_bind. destruct (String.eqb (psrc a) "0.0.0.0") eqn:E0.
  - unfold mret, HM_ret, hret. cbv beta iota. exists (HRet tt), d.
    split; [reflexivity|]. split; [auto|]. intros ps _. cbn [negb andb]. auto.
  - destruct (mac_prefixes (monitor w)) as [ps|] eqn:Hp.
    + assert (Hp1 : mac_prefixes (monitor w1) = Some ps) by exact Hp.
      rewrite hrun_bind, (match_mac_prefix_run _ _ _ Hp1). cbv beta iota.
      cbn [negb andb].
      destruct (any_prefix (normalize_mac_address (hwsrc a)) ps) eqn:Ea.
      * cbn [negb]. unfold mret, HM_ret, hret. cbv beta iota. rewrite say_bind.
        destruct (device_action_run {| mac := hwsrc a; ip := psrc a |}
                    {| monitor := monitor w1;
                       out := (out w1 ++ [HLog INFO (found_device (hwsrc a) (psrc a))])%list |})
          as (d2 & E2 & _ & U2 & S2).
        cbn [mac ip]. rewrite E2. cbn [monitor out w1].
        exists (HRet tt), (d ++ [HLog INFO (found_device (hwsrc a) (psrc a))] ++ d2)%list.
        split; [rewrite <- !app_assoc; reflexivity|].
        rewrite !hcount_app, U, En, Di. cbn [monitor] in U2, S2. split.
        -- intros M. rewrite (U2 M). reflexivity.
        -- intros ps' [= <-]. split; [reflexivity|]. intros M.
           destruct (S2 M) as [-> ->]. rewrite Ea. split; reflexivity.
      * cbn [negb]. unfold mret, HM_ret, hret. cbv beta iota.
        exists (HRet tt), d. split; [reflexivity|]. split; [auto|].
        intros ps' [= <-]. rewrite Ea. auto.
    + assert (Hp1 : mac_prefixes (monitor w1) = None) by exact Hp.
      rewrite hrun_bind. unfold match_mac_prefix. rewrite Hp1.
      cbv beta iota zeta. eexists _, d.
      split; [reflexivity|]. split; [auto|]. intros ps [=].
Qed.

Lemma hfor_each_check pkts : forall w,
  exists r d,
    hfor_each pkts check_esp32 w =
    (r, {| monitor := monitor w; out := (out w ++ d)%list |}) /\
    (mode (monitor w) = None -> hcount is_udp d = 0%nat) /\
    (forall prefixes,
       mac_prefixes (monitor w) = Some prefixes ->
       r = HRet tt /\
       (mode (monitor w) = Some 1 ->
        hcount (sends "maintenance.enable()") d =
          length (List.filter (accepted prefixes) pkts) /\
        hcount (sends "maintenance.disable()") d = 0%nat)).
Proof.
  induction pkts as [|pkt pkts IH]; intros w.
  - exists (HRet tt), []. rewrite app_nil_r. destruct w.
    split; [reflexivity|]. split; [reflexivity|]. intros ps _.
    split; [reflexivity|]. intros _. split; reflexivity.
  - cbn [hfor_each]. rewrite hrun_bind.
    destruct (check_esp32_run pkt w) as (r1 & d1 & -> & U1 & P1).
    set (w1 := {| monitor := monitor w; out := (out w ++ d1)%list |}).
    destruct (IH w1) as (r2 & d2 & E2 & U2 & P2). cbn [monitor w1] in U2, P2.
    destruct r1 as [[]|e|].
    + rewrite E2. cbn [monitor out w1]. exists r2, (d1 ++ d2)%list.
      split; [rewrite <- app_assoc; reflexivity|]. rewrite !hcount_app. split.
      * intros M. rewrite (U1 M), (U2 M). reflexivity.
      * intros ps Hp. destruct (P1 ps Hp) as [_ S1].
        destruct (P2 ps Hp) as [-> S2]. split; [reflexivity|]. intros M.
        destruct (S1 M) as [-> ->]. destruct (S2 M) as [-> ->].
        cbn [List.filter]. destruct (accepted ps pkt); split; reflexivity.
    + exists (HRaise e), d1. split; [reflexivity|]. split; [auto|].
      intros ps Hp. destruct (P1 ps Hp) as [[=] _].
    + exists HOutOfFuel, d1. split; [reflexivity|]. split; [auto|].
      intros ps Hp. destruct (P1 ps Hp) as [[=] _].
Qed.


Lemma discover_all networks : forall w,
  hfor_each networks (fun network =>
    say (HLog INFO (discovering network));;
    arp_discover_background network) w =
  (HRet tt, {| monitor := monitor w; out := (out w ++ discovery networks)%list |}).
Proof.
  induction networks as [|n r IH]; intros w.
  - unfold discovery. simpl. rewrite app_nil_r. destruct w. reflexivity.
  - cbn [hfor_each]. rewrite hrun_bind.
    change ((say (HLog INFO (discovering n));; arp_discover_background n) w)
      with (HRet tt,
            {| monitor := monitor w;
               out := ((out w ++ [HLog INFO (discovering n)]) ++
                       [HThread [HSleep 500; HLog INFO (arp_ping_request n);
                                 HSrp n 10000]])%list |}).
    cbv beta iota. rewrite IH. cbn [monitor out].
    unfold discovery. cbn [flat_map]. fold (discovery r).
    rewrite <- !app_assoc. reflexivity.
Qed.

(** [boot_monitor] is its prelude followed by the packets. *)
Lemma boot_monitor_exact networks pkts w :
  boot_monitor networks pkts w =
  hfor_each pkts check_esp32
    {| monitor := monitor w;
       out := (out w ++ prelude networks (mac_prefixes (monitor w)))%list |}.
Proof.
  unfold boot_monitor, notify_user. rewrite !say_bind. cbn [monitor out].
  rewrite hrun_bind, discover_all. cbv beta iota. cbn [monitor out].
  unfold arp_monitor. rewrite hrun_bind. cbv beta iota. rewrite say_bind.
  cbn [monitor out]. unfold prelude. rewrite <- !app_assoc. reflexivity.
Qed.



(** ** What is sent at all *)

Lemma emits_ret {A} p (a : A) : emits p (mret a).
Proof.
  intros w. exists (HRet a), []. rewrite app_nil_r. destruct w.
  split; reflexivity.
Qed.

Lemma emits_raise {A} p e : emits p (@hraise A e).
Proof.
  intros w. exists (HRaise e), []. rewrite app_nil_r. destruct w.
  split; reflexivity.
Qed.

Lemma emits_say p e : p e = true -> emits p (say e).
Proof.
  intros H w. exists (HRet tt), [e]. split; [reflexivity|].
  simpl. rewrite H. reflexivity.
Qed.

Lemma emits_get_mode p : emits p get_mode.
Proof.
  intros w. exists (HRet (mode (monitor w))), []. rewrite app_nil_r.
  destruct w. split; reflexivity.
Qed.

Lemma emits_match_mac_prefix p m : emits p (match_mac_prefix m).
Proof.
  intros w. unfold match_mac_prefix.
  destruct (mac_prefixes (monitor w)); eexists _, []; rewrite app_nil_r;
    destruct w; split; reflexivity.
Qed.

Lemma emits_bind {A B} p (m : HM A) (k : A -> HM B) :
  emits p m -> (forall a, emits p (k a)) -> emits p (m ≫= k).
Proof.
  intros Hm Hk w. rewrite hrun_bind.
  destruct (Hm w) as (r & d & -> & F). destruct r as [a|e|].
  - destruct (Hk a {| monitor := monitor w; out := (out w ++ d)%list |})
      as (r2 & d2 & -> & F2).
    cbn [monitor out]. exists r2, (d ++ d2)%list.
    split; [rewrite <- app_assoc; reflexivity|].
    rewrite forallb_app, F, F2. reflexivity.
  - exists (HRaise e), d. auto.
  - exists HOutOfFuel, d. auto.
Qed.

Lemma emits_hfor_each {A} p (xs : list A) body :
  (forall x, emits p (body x)) -> emits p (hfor_each xs body).
Proof.
  intros Hb. induction xs as [|x xs IH]; cbn [hfor_each].
  - apply emits_ret.
  - apply emits_bind; auto.
Qed.

(** Splits a computation of the agent along its binds and branches. *)
Ltac emits_tac :=
  repeat first
    [ apply emits_bind; [|intros ?]
    | apply emits_ret | apply emits_raise | apply emits_get_mode
    | apply emits_match_mac_prefix
    | apply emits_say; reflexivity
    | match goal with
      | |- emits _ (if ?b then _ else _) => destruct b
      | |- emits _ (match ?x with _ => _ end) => destruct x
      end ].

(** Handling a packet starts no thread and pings no network. *)
Lemma check_esp32_plain pkt : emits plain (check_esp32 pkt).
Proof.
  unfold check_esp32, arp_display, device_action, toggle_maintenance,
    write_floating_address, notify_user, TRACE.
  destruct pkt as [a|]; emits_tac.
Qed.

Lemma all_events_app t d : all_events (t ++ d) = (all_events t ++ all_events d)%list.
Proof. unfold all_events. apply flat_map_app. Qed.

Lemma all_events_plain d : forallb plain d = true -> all_events d = d.
Proof.
  induction d as [|e d IH]; [reflexivity|]. simpl.
  intros [He Hd]%andb_prop. unfold all_events in *. cbn [flat_map].
  rewrite (IH Hd). destruct e; try discriminate; reflexivity.
Qed.

Lemma pings_app t d : pings (t ++ d) = (pings t ++ pings d)%list.
Proof.
  induction t as [|e t IH]; [reflexivity|].
  destruct e; simpl; rewrite ?IH; reflexivity.
Qed.

Lemma pings_plain d : forallb plain d = true -> pings d = [].
Proof.
  induction d as [|e d IH]; [reflexivity|]. simpl.
  intros [He Hd]%andb_prop. destruct e; try discriminate; auto.
Qed.

(** The discovery threads: one ARP ping per network, nothing over UDP. *)
Lemma all_events_discovery networks :
  hcount is_udp (all_events (discovery networks)) = 0%nat /\
  pings (all_events (discovery networks)) = networks.
Proof.
  induction networks as [|n r [IHu IHp]]; [split; reflexivity|].
  change (all_events (discovery (n :: r)))
    with ([HLog INFO (discovering n); HSleep 500;
           HLog INFO (arp_ping_request n); HSrp n 10000] ++
          all_events (discovery r))%list.
  rewrite hcount_app, pings_app, IHu, IHp. split; reflexivity.
Qed.

(** X22: started with the command 'monitor', the agent only watches.
    Whatever packets arrive and whatever prefixes it was given (even none),
    neither its main flow nor any thread it starts opens a UDP socket or
    sends a maintenance command.  The only packets it sends are the ARP
    pings of its discovery threads, one for each local network. *)
Theorem monitor_command_sends_only_arp_pings prefixes networks pkts w :
  let t := all_events
             (hdelta w (run_monitor "monitor" prefixes
                          (boot_monitor networks pkts) w).2) in
  hcount is_udp t = 0%nat /\ pings t = networks.
Proof.
  change (run_monitor "monitor" prefixes (boot_monitor networks pkts) w)
    with (boot_monitor networks pkts
            {| monitor := new_monitor prefixes None; out := out w |}).
  rewrite boot_monitor_exact. cbn [monitor out new_monitor mac_prefixes].
  set (w1 := {| monitor := _; out := _ |}).
  destruct (emits_hfor_each plain pkts check_esp32 check_esp32_plain w1)
    as (r & d & E & F).
  destruct (hfor_each_check pkts w1) as (r' & d' & E' & U & _).
  assert (d' = d) as ->.
  { rewrite E in E'. injection E' as _ E'. apply app_inv_head in E'. auto. }
  rewrite E. cbv zeta. cbn [snd out monitor w1].
  rewrite <- app_assoc, hdelta_app, all_events_app, (all_events_plain d F).
  unfold prelude. rewrite !all_events_app.
  destruct (all_events_discovery networks) as [Du Dp].
  rewrite !hcount_app, !pings_app, Du, Dp, (U eq_refl), (pings_plain d F).
  cbn. split; [reflexivity|]. rewrite ?app_nil_r. reflexivity.
Qed.


(** * The host-side agent: waiting for a hostname *)

Lemma wait_hostname_loop_step res f h waiting count w :
  wait_hostname_loop res (S f) h waiting count w =
  match res (hcount is_resolve (out w)) with
  | Found ip_address =>
      (HRet ip_address,
       {| monitor := monitor w;
          out := (out w ++ HResolve h ::
                  (if waiting then [HStderrWrite newline] else []) ++
                  [HLog INFO (hostname_found h ip_address)])%list |})
  | Failed errno =>
      if errno =? 8 then
        wait_hostname_loop res f h true (count + 1)
          {| monitor := monitor w;
             out := (out w ++ round_events h waiting count)%list |}
      else
        (HRaise (gaierror errno),
         {| monitor := monitor w; out := (out w ++ [HResolve h])%list |})
  end.
Proof.
  cbn [wait_hostname_loop]. rewrite hrun_bind. unfold gethostbyname.
  rewrite hrun_bind. unfold get_out at 1. cbv beta iota. rewrite say_bind.
  unfold mret at 1, HM_ret, hret. cbv beta iota.
  destruct (res (hcount is_resolve (out w))) as [ip_address|errno].
  - destruct waiting; hrun; rewrite <- !app_assoc; reflexivity.
  - destruct (errno =? 8); [|reflexivity]. unfold round_events.
    destruct waiting; [destruct (count mod 79 =? 0)|]; hrun;
      rewrite <- !app_assoc; reflexivity.
Qed.

Lemma hsleeps_app t d : hsleeps (t ++ d) = (hsleeps t ++ hsleeps d)%list.
Proof.
  induction t as [|e t IH]; [reflexivity|].
  destruct e; simpl; rewrite ?IH; reflexivity.
Qed.

Lemma round_events_counts h waiting count :
  hsleeps (round_events h waiting count) = [INTERVAL] /\
  hcount is_resolve (round_events h waiting count) = 1%nat /\
  hcount is_dot (round_events h waiting count) = (if waiting then 1 else 0)%nat.
Proof.
  unfold round_events.
  destruct waiting; [destruct (count mod 79 =? 0)|]; repeat split; reflexivity.
Qed.

(** [k] rounds against a resolver that keeps failing with errno 8. *)
Lemma wait_hostname_loop_rounds res h k : forall fuel waiting count w,
  (forall j, (j < k)%nat ->
     res (hcount is_resolve (out w) + j)%nat = Failed 8) ->
  (k <= fuel)%nat ->
  exists d,
    wait_hostname_loop res fuel h waiting count w =
    wait_hostname_loop res (fuel - k) h
      (match k with O => waiting | S _ => true end) (count + Z.of_nat k)
      {| monitor := monitor w; out := (out w ++ d)%list |} /\
    hsleeps d = replicate k INTERVAL /\
    hcount is_resolve d = k /\
    hcount is_dot d = (if waiting then k else pred k).
Proof.
  induction k as [|k IH]; intros fuel waiting count w Hf Hk.
  - exists []. rewrite app_nil_r, Nat.sub_0_r, Z.add_0_r. destruct w.
    repeat split; destruct waiting; reflexivity.
  - destruct fuel as [|f]; [lia|].
    rewrite wait_hostname_loop_step.
    rewrite <- (Nat.add_0_r (hcount is_resolve (out w))), (Hf 0%nat) by lia.
    change (8 =? 8) with true. cbv iota.
    destruct (round_events_counts h waiting count) as (Rs & Rr & Rd).
    destruct (IH f true (count + 1)
                {| monitor := monitor w;
                   out := (out w ++ round_events h waiting count)%list |})
      as (d & E & Sd & Cr & Cd).
    { intros j Hj. cbn [out]. rewrite hcount_app, Rr.
      replace (hcount is_resolve (out w) + 1 + j)%nat
        with (hcount is_resolve (out w) + S j)%nat by lia.
      apply Hf. lia. }
    { lia. }
    exists (round_events h waiting count ++ d)%list.
    rewrite E. cbn [monitor out]. rewrite <- app_assoc.
    replace (count + 1 + Z.of_nat k) with (count + Z.of_nat (S k)) by lia.
    split; [destruct k; reflexivity|].
    rewrite hsleeps_app, !hcount_app, Rs, Rr, Rd, Sd, Cr, Cd.
    repeat split. destruct waiting; lia.
Qed.

(** X24: [wait_hostname] returns the address of the first successful
    lookup.  When [k] lookups fail before it (with errno 8), it has slept
    [k] times for one second and written a dot for every failure after the
    first; a missing or empty hostname stands for "espressif". *)
Theorem wait_hostname_finds res fuel hostname w k ip_address :
  (forall j, (j < k)%nat ->
     res (hcount is_resolve (out w) + j)%nat = Failed 8) ->
  res (hcount is_resolve (out w) + k)%nat = Found ip_address ->
  (k < fuel)%nat ->
  exists w',
    wait_hostname res fuel hostname w = (HRet ip_address, w') /\
    monitor w' = monitor w /\
    hsleeps (hdelta w w') = replicate k 1000 /\
    hcount is_resolve (hdelta w w') = S k /\
    hcount is_dot (hdelta w w') = pred k /\
    In (HLog INFO (hostname_found (or_default hostname) ip_address))
       (hdelta w w') /\
    (hostname = None \/ hostname = Some "" ->
     In (HResolve "espressif") (hdelta w w')).
Proof.
  intros Hf Hok Hk. unfold wait_hostname.
  destruct (wait_hostname_loop_rounds res (or_default hostname) k fuel false 0 w)
    as (d & -> & Sd & Cr & Cd); [exact Hf|lia|].
  destruct (fuel - k)%nat as [|f] eqn:Ef; [lia|].
  rewrite wait_hostname_loop_step. cbn [out monitor].
  rewrite hcount_app, Cr, Hok. eexists. split; [reflexivity|].
  cbn [monitor]. split; [reflexivity|].
  rewrite <- app_assoc, hdelta_app.
  rewrite hsleeps_app, !hcount_app, Sd, Cr, Cd.
  assert (T : forall b : bool,
    hsleeps (HResolve (or_default hostname) ::
             (if b then [HStderrWrite newline] else []) ++
             [HLog INFO (hostname_found (or_default hostname) ip_address)])%list = [] /\
    hcount is_resolve (HResolve (or_default hostname) ::
             (if b then [HStderrWrite newline] else []) ++
             [HLog INFO (hostname_found (or_default hostname) ip_address)])%list = 1%nat /\
    hcount is_dot (HResolve (or_default hostname) ::
             (if b then [HStderrWrite newline] else []) ++
             [HLog INFO (hostname_found (or_default hostname) ip_address)])%list = 0%nat)
    by (intros []; repeat split; reflexivity).
  destruct (T (match k with O => false | S _ => true end)) as (-> & -> & ->).
  rewrite app_nil_r. split; [reflexivity|]. split; [lia|]. split; [lia|].
  split.
  - apply in_or_app. right. right. apply in_or_app. right. left. reflexivity.
  - intros H. apply in_or_app. right. left.
    destruct H as [-> | ->]; reflexivity.
Qed.

Lemma wait_hostname_finds_witness :
  exists w',
    wait_hostname third_time_lucky 5 None (host0 None None) =
      (HRet "192.168.178.20", w') /\
    hsleeps (hdelta (host0 None None) w') = [1000; 1000] /\
    hcount is_dot (hdelta (host0 None None) w') = 1%nat.
Proof.
  destruct (wait_hostname_finds third_time_lucky 5 None (host0 None None) 2
              "192.168.178.20") as (w' & E & _ & S & _ & D & _).
  - intros j Hj. simpl. destruct j as [|[|j]]; [reflexivity|reflexivity|lia].
  - reflexivity.
  - lia.
  - exists w'. auto.
Defined.

(** X25: a lookup that fails with any errno other than 8 ends the wait at
    once: the error is raised again, after as many one-second sleeps as
    there were errno-8 failures before it and no more. *)
Theorem wait_hostname_reraises res fuel hostname w k errno :
  (forall j, (j < k)%nat ->
     res (hcount is_resolve (out w) + j)%nat = Failed 8) ->
  res (hcount is_resolve (out w) + k)%nat = Failed errno ->
  errno <> 8 ->
  (k < fuel)%nat ->
  exists w',
    wait_hostname res fuel hostname w = (HRaise (gaierror errno), w') /\
    hsleeps (hdelta w w') = replicate k 1000 /\
    hcount is_resolve (hdelta w w') = S k.
Proof.
  intros Hf Hbad Hne Hk. unfold wait_hostname.
  destruct (wait_hostname_loop_rounds res (or_default hostname) k fuel false 0 w)
    as (d & -> & Sd & Cr & _); [exact Hf|lia|].
  destruct (fuel - k)%nat as [|f] eqn:Ef; [lia|].
  rewrite wait_hostname_loop_step. cbn [out monitor].
  rewrite hcount_app, Cr, Hbad.
  destruct (errno =? 8) eqn:E8; [lia|].
  eexists. split; [reflexivity|].
  rewrite <- app_assoc, hdelta_app, hsleeps_app, hcount_app, Sd, Cr.
  cbn [hsleeps]. rewrite app_nil_r. split; [reflexivity|].
  change (hcount is_resolve [HResolve (or_default hostname)]) with 1%nat. lia.
Qed.

(** On Linux an unknown name is errno -2: the wait does not wait. *)
Lemma wait_hostname_reraises_witness :
  exists w',
    wait_hostname (fun _ => Failed (-2)) 3 (Some "espressif") (host0 None None)
      = (HRaise (gaierror (-2)), w') /\
    hsleeps (hdelta (host0 None None) w') = [] /\
    hcount is_resolve (hdelta (host0 None None) w') = 1%nat.
Proof.
  apply (wait_hostname_reraises (fun _ => Failed (-2)) 3 (Some "espressif")
           (host0 None None) 0 (-2)).
  - intros j Hj. lia.
  - reflexivity.
  - lia.
  - lia.
Defined.

(** X26: [wait_hostname_forever] never comes back: whatever the resolver
    answers, and in particular also after the hostname has been found or a
    lookup has raised, the call neither returns nor raises. *)
Theorem wait_hostname_forever_never_ends res fuel hostname w :
  (wait_hostname_forever res fuel hostname w).1 = HOutOfFuel.
Proof.
  unfold wait_hostname_forever. generalize (or_default hostname) as h.
  intros h. revert w. induction fuel as [|f IH]; intros w; [reflexivity|].
  cbn [wait_hostname_forever_loop]. rewrite hrun_bind. unfold try_except.
  rewrite hrun_bind.
  destruct (wait_hostname res f (Some h) w) as [[ip_address|e|] w1].
  - unfold mret at 1, HM_ret, hret. cbv beta iota. rewrite say_bind. apply IH.
  - cbv beta iota. unfold say at 1. cbv beta iota. rewrite say_bind. apply IH.
  - reflexivity.
Qed.
End TerkinProofs.
